(** * gldf-rs fixture generators: a shallow embedding of
      scripts/astral_sky_demo.py and scripts/enrich_aec_gldf.py

    Python floats are IEEE binary64 values: they are embedded as Rocq's
    primitive floats, so [+ - * /] and the comparisons are the very operations
    the interpreter performs.  Python ints are unbounded: they are [Z].
    Python [str] values are embedded as byte strings; the case and
    white-space functions below are the ASCII fragment of the Unicode ones.
    An exception is an explicit outcome ([Raise]), threaded through the
    [res] monad. *)

From Stdlib Require Import ZArith List String Ascii Bool Lia Floats Permutation.
Import ListNotations.

Set Warnings "-inexact-float".

(** ** Exceptions and the result monad *)

Inductive exn : Set :=
| ValueError
| KeyError
| OverflowError
| ZeroDivisionError.

Inductive res (A : Type) : Type :=
| Ok (a : A)
| Raise (e : exn).

Arguments Ok {A} a.
Arguments Raise {A} e.

Definition bind {A B : Type} (m : res A) (k : A -> res B) : res B :=
  match m with
  | Ok a => k a
  | Raise e => Raise e
  end.

Notation "x <- m ;; k" := (bind m (fun x => k))
  (at level 61, m at next level, right associativity).

Definition is_ok {A : Type} (m : res A) : bool :=
  match m with Ok _ => true | Raise _ => false end.

(** [mapM f l]: a Python loop or comprehension whose body may raise; the
    first exception aborts the loop. *)
Fixpoint mapM {A B : Type} (f : A -> res B) (l : list A) : res (list B) :=
  match l with
  | [] => Ok []
  | a :: l' => b <- f a ;; bs <- mapM f l' ;; Ok (b :: bs)
  end.

(** ** Python numbers *)

(** [float(n)] for an int [n]: round to nearest even; OverflowError ("int
    too large to convert to float") when the rounding is infinite. *)
Definition float_of_int (n : Z) : res float :=
  let x := SF2Prim (binary_normalize prec emax n 0 false) in
  if is_infinity x then Raise OverflowError else Ok x.

(** [int(x)] for a float [x]: truncation toward zero; ValueError on NaN,
    OverflowError on an infinity. *)
Definition int_of_float (x : float) : res Z :=
  match Prim2SF x with
  | S754_nan => Raise ValueError
  | S754_infinity _ => Raise OverflowError
  | S754_zero _ => Ok 0%Z
  | S754_finite s m e =>
      let a := Z.shiftl (Z.pos m) e in
      Ok (if s then (- a)%Z else a)
  end.

(** [x / y] on floats: ZeroDivisionError when the divisor is zero. *)
Definition truediv (x y : float) : res float :=
  if (y =? 0)%float then Raise ZeroDivisionError else Ok (x / y)%float.

(** [max(a, b)] and [min(a, b)] of the builtins: the first argument is
    kept unless the second is strictly greater (smaller). *)
Definition py_max2 (a b : float) : float := if (a <? b)%float then b else a.
Definition py_min2 (a b : float) : float := if (b <? a)%float then b else a.

(** [max(iterable)]: the first item, replaced by each later item that is
    strictly greater. *)
Definition py_max (first : float) (rest : list float) : float :=
  fold_left py_max2 rest first.

(** [range(lo, hi, step)] for a positive step, with [fuel] bounding the
    number of items. *)
Fixpoint range_from (fuel : nat) (lo hi step : Z) : list Z :=
  match fuel with
  | O => []
  | S fuel' => if (lo <? hi)%Z then lo :: range_from fuel' (lo + step) hi step else []
  end.

Definition range (lo hi step : Z) : list Z :=
  range_from (Z.to_nat ((hi - lo + step - 1) / step)) lo hi step.

(** ** Python strings (ASCII fragment) *)

Local Open Scope string_scope.

(** The double-quote character. *)
Definition dq : string := String (ascii_of_nat 34) EmptyString.

Definition is_lower (c : ascii) : bool :=
  let n := nat_of_ascii c in (97 <=? n)%nat && (n <=? 122)%nat.
Definition is_upper (c : ascii) : bool :=
  let n := nat_of_ascii c in (65 <=? n)%nat && (n <=? 90)%nat.
Definition is_digit (c : ascii) : bool :=
  let n := nat_of_ascii c in (48 <=? n)%nat && (n <=? 57)%nat.
(** [str.isspace] on ASCII: TAB, LF, VT, FF, CR, FS, GS, RS, US and space. *)
Definition is_space (c : ascii) : bool :=
  let n := nat_of_ascii c in
  ((9 <=? n)%nat && (n <=? 13)%nat) || ((28 <=? n)%nat && (n <=? 32)%nat).

Definition upper_char (c : ascii) : ascii :=
  if is_lower c then ascii_of_nat (nat_of_ascii c - 32) else c.
Definition lower_char (c : ascii) : ascii :=
  if is_upper c then ascii_of_nat (nat_of_ascii c + 32) else c.

Fixpoint map_string (f : ascii -> ascii) (s : string) : string :=
  match s with
  | EmptyString => EmptyString
  | String c s' => String (f c) (map_string f s')
  end.

Fixpoint filter_string (p : ascii -> bool) (s : string) : string :=
  match s with
  | EmptyString => EmptyString
  | String c s' => if p c then String c (filter_string p s') else filter_string p s'
  end.

Definition upper (s : string) : string := map_string upper_char s.
Definition lower (s : string) : string := map_string lower_char s.

Fixpoint lstrip (s : string) : string :=
  match s with
  | String c s' => if is_space c then lstrip s' else s
  | EmptyString => EmptyString
  end.

Fixpoint rev_string (acc s : string) : string :=
  match s with
  | EmptyString => acc
  | String c s' => rev_string (String c acc) s'
  end.

Definition rstrip (s : string) : string :=
  rev_string EmptyString (lstrip (rev_string EmptyString s)).

Definition strip (s : string) : string := rstrip (lstrip s).

(** [s.replace(a, b)] for single characters [a] and [b]. *)
Definition replace_char (a b : ascii) (s : string) : string :=
  map_string (fun c => if Ascii.eqb c a then b else c) s.

(** [s.replace(a, t)] for a single character [a] and a string [t]. *)
Fixpoint replace_char_str (a : ascii) (t : string) (s : string) : string :=
  match s with
  | EmptyString => EmptyString
  | String c s' =>
      if Ascii.eqb c a then t ++ replace_char_str a t s'
      else String c (replace_char_str a t s')
  end.

Fixpoint startswith (s p : string) : bool :=
  match p with
  | EmptyString => true
  | String a p' =>
      match s with
      | EmptyString => false
      | String b s' => Ascii.eqb b a && startswith s' p'
      end
  end.

(** A string is falsy exactly when it is empty. *)
Definition truthy (s : string) : bool :=
  match s with EmptyString => false | _ => true end.

(** [str(n)] for an int. *)
Definition digit_char (d : Z) : ascii := ascii_of_nat (48 + Z.to_nat d).

Fixpoint digits_of (fuel : nat) (n : Z) (acc : string) : string :=
  match fuel with
  | O => acc
  | S fuel' =>
      let acc' := String (digit_char (n mod 10)) acc in
      if (n <? 10)%Z then acc' else digits_of fuel' (n / 10) acc'
  end.

Definition str_nat (n : Z) : string := digits_of (S (Z.to_nat (Z.log2 n))) n EmptyString.

Definition str_int (n : Z) : string :=
  if (n <? 0)%Z then "-" ++ str_nat (- n) else str_nat n.

(** ** Data model *)

(** [class Star] of astral_sky_demo.py. *)
Record Star : Type := mkStar {
  name : string;
  hip_id : option Z;
  ra : float;
  dec : float;
  mag : float;
  spectral_type : string;
  color_index : option float
}.

(** ** The interpreter's library, as an interface

    The C library behind [math] and behind float powers, the decimal
    conversions behind [float(s)], [repr] and the format mini-language, and
    object identity are not part of the repository.  The generators are
    functions of this interface; every theorem below holds for each of its
    implementations that meets the hypotheses the theorem names. *)
Record Runtime : Type := {
  (** [math.exp], [math.sin], [math.cos], [math.asin], [math.acos] *)
  math_exp : float -> res float;
  math_sin : float -> res float;
  math_cos : float -> res float;
  math_asin : float -> res float;
  math_acos : float -> res float;
  (** [x ** y] on floats *)
  float_pow : float -> float -> res float;
  (** [round(x, ndigits)] *)
  py_round : float -> Z -> float;
  (** [float(s)] and [int(s)] on strings *)
  parse_float : string -> res float;
  parse_int : string -> res Z;
  (** [str(x)] of a float, also [f"{x}"] *)
  float_repr : float -> string;
  (** [f"{x:.Nf}"] *)
  float_fixed : nat -> float -> string;
  (** [id(star)] *)
  id_of : Star -> Z
}.

(** ** Star.temperature *)

Definition temperature (s : Star) : res Z :=
  match color_index s with
  | Some bv =>
      if (bv <? -0.3)%float then Ok 30000%Z
      else if (bv <? 0.0)%float then int_of_float (10000 - bv * 10000)%float
      else if (bv <? 0.6)%float then int_of_float (7500 - bv * 5000)%float
      else if (bv <? 1.5)%float then int_of_float (6000 - (bv - 0.6) * 2500)%float
      else Ok 3000%Z
  | None =>
      let spec := if truthy (spectral_type s) then upper (spectral_type s) else "G2" in
      if startswith spec "O" then Ok 35000%Z
      else if startswith spec "B" then Ok 20000%Z
      else if startswith spec "A" then Ok 9000%Z
      else if startswith spec "F" then Ok 7000%Z
      else if startswith spec "G" then Ok 5500%Z
      else if startswith spec "K" then Ok 4500%Z
      else if startswith spec "M" then Ok 3200%Z
      else Ok 5500%Z
  end.

(** The mapping as the specification words it: a lookup table on the
    leading letter, and a list of color-index segments, each with its upper
    bound and its linear formula. *)
Definition class_table : list (ascii * Z) :=
  [("O"%char, 35000%Z); ("B"%char, 20000%Z); ("A"%char, 9000%Z);
   ("F"%char, 7000%Z); ("G"%char, 5500%Z); ("K"%char, 4500%Z);
   ("M"%char, 3200%Z)].

Fixpoint lookup_class (c : ascii) (t : list (ascii * Z)) : option Z :=
  match t with
  | [] => None
  | (k, v) :: t' => if Ascii.eqb c k then Some v else lookup_class c t'
  end.

Definition kelvin_of_class (spect : string) : Z :=
  match spect with
  | EmptyString => 5500%Z
  | String c _ =>
      match lookup_class (upper_char c) class_table with
      | Some v => v
      | None => 5500%Z
      end
  end.

Definition bv_segments : list (float * (float -> res Z)) :=
  [((-0.3)%float, fun _ => Ok 30000%Z);
   (0.0%float, fun bv => int_of_float (10000 - bv * 10000)%float);
   (0.6%float, fun bv => int_of_float (7500 - bv * 5000)%float);
   (1.5%float, fun bv => int_of_float (6000 - (bv - 0.6) * 2500)%float)].

Fixpoint kelvin_of_bv_in (segs : list (float * (float -> res Z))) (bv : float) : res Z :=
  match segs with
  | [] => Ok 3000%Z
  | (bound, f) :: segs' => if (bv <? bound)%float then f bv else kelvin_of_bv_in segs' bv
  end.

Definition kelvin_of_bv : float -> res Z := kelvin_of_bv_in bv_segments.

(** ** Catalog Loader *)

(** [get_fallback_stars]. *)
Definition BRIGHT_STARS : list (string * float * float * float * string * float) :=
  [("Sirius", 101.287, -16.716, -1.46, "A1V", 0.00);
   ("Canopus", 95.988, -52.696, -0.74, "F0Ib", 0.15);
   ("Arcturus", 213.915, 19.182, -0.05, "K1.5III", 1.23);
   ("Vega", 279.235, 38.784, 0.03, "A0V", 0.00);
   ("Capella", 79.172, 45.998, 0.08, "G5III", 0.80);
   ("Rigel", 78.634, -8.202, 0.13, "B8Ia", -0.03);
   ("Procyon", 114.825, 5.225, 0.34, "F5IV-V", 0.42);
   ("Betelgeuse", 88.793, 7.407, 0.42, "M1Ia", 1.85);
   ("Altair", 297.696, 8.868, 0.77, "A7V", 0.22);
   ("Aldebaran", 68.980, 16.509, 0.85, "K5III", 1.54);
   ("Antares", 247.352, -26.432, 0.96, "M1Ib", 1.83);
   ("Spica", 201.298, -11.161, 0.97, "B1V", -0.23);
   ("Pollux", 116.329, 28.026, 1.14, "K0III", 1.00);
   ("Deneb", 310.358, 45.280, 1.25, "A2Ia", 0.09);
   ("Polaris", 37.954, 89.264, 2.02, "F7Ib", 0.60)]%float.

Definition get_fallback_stars : list Star :=
  map (fun '(name, ra, dec, mag, spec, bv) =>
         mkStar name None ra dec mag spec (Some bv))
      BRIGHT_STARS.

(** A row of [csv.DictReader]: a dict from column names to strings. *)
Definition row : Type := list (string * string).

Fixpoint row_lookup (r : row) (k : string) : option string :=
  match r with
  | [] => None
  | (k', v) :: r' => if String.eqb k' k then Some v else row_lookup r' k
  end.

(** [row[k]] *)
Definition getitem (r : row) (k : string) : res string :=
  match row_lookup r k with Some v => Ok v | None => Raise KeyError end.

(** [row.get(k, '')] *)
Definition get (r : row) (k : string) : string :=
  match row_lookup r k with Some v => v | None => "" end.

(** The body of the inner [try] of [load_hyg_catalogue] for one row:
    [Ok None] is the [continue] of a row above the limit. *)
Definition load_row (rt : Runtime) (mag_limit : float) (r : row) : res (option Star) :=
  m <- getitem r "mag" ;;
  mag <- parse_float rt m ;;
  if (mag_limit <? mag)%float then Ok None
  else
    let ci := get r "ci" in
    color_index <- (if truthy ci then x <- parse_float rt ci ;; Ok (Some x) else Ok None) ;;
    let hip := get r "hip" in
    hip_id <- (if truthy hip then n <- parse_int rt hip ;; Ok (Some n) else Ok None) ;;
    name <- (match hip_id with
             | Some n =>
                 if (n =? 0)%Z then i <- getitem r "id" ;; Ok ("HYG " ++ i)
                 else Ok (if truthy (get r "proper") then get r "proper"
                          else "HIP " ++ str_int n)
             | None => i <- getitem r "id" ;; Ok ("HYG " ++ i)
             end) ;;
    ra_s <- getitem r "ra" ;;
    ra_h <- parse_float rt ra_s ;;
    dec_s <- getitem r "dec" ;;
    dec <- parse_float rt dec_s ;;
    Ok (Some (mkStar name hip_id (ra_h * 15.0)%float dec mag (get r "spect") color_index)).

(** The [for row in reader] loop: [except (ValueError, KeyError): continue]
    drops the row; any other exception leaves the loop. *)
Fixpoint load_rows (rt : Runtime) (mag_limit : float) (rows : list row) : res (list Star) :=
  match rows with
  | [] => Ok []
  | r :: rows' =>
      match load_row rt mag_limit r with
      | Ok (Some s) => stars <- load_rows rt mag_limit rows' ;; Ok (s :: stars)
      | Ok None | Raise ValueError | Raise KeyError => load_rows rt mag_limit rows'
      | Raise e => Raise e
      end
  end.

(** [load_hyg_catalogue]: [catalogue] is the parsed CSV when one of the two
    files exists, [None] when neither does. *)
Definition load_hyg_catalogue (rt : Runtime) (catalogue : option (list row))
    (mag_limit : float) : res (list Star) :=
  match catalogue with
  | None => Ok get_fallback_stars
  | Some rows => load_rows rt mag_limit rows
  end.


(** ** Identifier derivation: [star_to_id] *)

Definition is_id_char (c : ascii) : bool :=
  is_lower c || is_digit c || Ascii.eqb c "_"%char.

(** [re.sub(r'[^a-z0-9_]', '', name.replace(' ', '_').replace('-', '_'))] *)
Definition safe_name_of (nm : string) : string :=
  filter_string is_id_char
    (replace_char "-"%char "_"%char (replace_char " "%char "_"%char nm)).

Definition star_to_id (rt : Runtime) (star : Star) : string :=
  let nm := strip (lower (name star)) in
  let safe_name := safe_name_of nm in
  let safe_name :=
    match safe_name with
    | String c _ => if is_digit c then "star_" ++ safe_name else safe_name
    | EmptyString => safe_name
    end in
  if truthy safe_name then safe_name
  else "star_" ++ str_int (match hip_id star with
                           | Some n => if (n =? 0)%Z then id_of rt star else n
                           | None => id_of rt star
                           end).

(** ** Radiometric model *)

(** Conversion of an int that is known to be small (exact below 2^53). *)
Definition float_of_Z (n : Z) : float := SF2Prim (binary_normalize prec emax n 0 false).

(** [a / b] on ints: the correctly rounded quotient; ZeroDivisionError for
    a zero divisor, OverflowError when the quotient is too large. *)
Definition int_truediv (a b : Z) : res float :=
  if (b =? 0)%Z then Raise ZeroDivisionError
  else
    let k := Z.max 0 (64 + Z.log2 (Z.abs b) - Z.log2 (Z.abs a)) in
    let q := Z.quot (Z.abs a * 2 ^ k) (Z.abs b) in
    let r := Z.rem (Z.abs a * 2 ^ k) (Z.abs b) in
    let m := (2 * q + (if (r =? 0)%Z then 0 else 1))%Z in
    let neg := negb (Bool.eqb (a <? 0)%Z (b <? 0)%Z) in
    let x := SF2Prim (binary_normalize prec emax (if neg then - m else m)%Z (- (k + 1)) neg) in
    if is_infinity x then Raise OverflowError else Ok x.

(** One wavelength bin of [generate_star_spectrum]: the body of the [try],
    then the [except (OverflowError, ZeroDivisionError)] handler. *)
Definition planck_bin (rt : Runtime) (temperature : Z) (wl_nm : Z) : res float :=
  let h := 6.626e-34%float in
  let c := 3e8%float in
  let k := 1.381e-23%float in
  let wl_m := (float_of_Z wl_nm * 1e-9)%float in
  t <- float_of_int temperature ;;
  exponent <- truediv (h * c) (wl_m * k * t) ;;
  if (700 <? exponent)%float then Ok 0.0%float
  else
    p <- float_pow rt wl_m 5 ;;
    a <- truediv 1.0 p ;;
    e <- math_exp rt exponent ;;
    truediv a (e - 1).

Definition star_bin (rt : Runtime) (temperature : Z) (wl_nm : Z) : res (Z * float) :=
  match planck_bin rt temperature wl_nm with
  | Ok intensity => Ok (wl_nm, intensity)
  | Raise OverflowError | Raise ZeroDivisionError => Ok (wl_nm, 0.0%float)
  | Raise e => Raise e
  end.

(** The normalisation both spectrum generators end with. *)
Definition max_of (spectrum : list (Z * float)) : float :=
  match map snd spectrum with
  | [] => 1.0%float
  | i :: rest => py_max i rest
  end.

Definition normalize (spectrum : list (Z * float)) : res (list (Z * float)) :=
  let max_intensity := max_of spectrum in
  if (0 <? max_intensity)%float
  then mapM (fun '(wl, i) => v <- truediv i max_intensity ;; Ok (wl, v)) spectrum
  else Ok spectrum.

Definition generate_star_spectrum (rt : Runtime) (temperature : Z) : res (list (Z * float)) :=
  spectrum <- mapM (star_bin rt temperature) (range 380 781 5) ;;
  normalize spectrum.

(** One wavelength of [generate_fake_spectrum]. *)
Definition led_bin (rt : Runtime) (cct : Z) (wl : Z) : res (Z * float) :=
  x0 <- int_truediv (- (wl - 450) ^ 2) (2 * 15 ^ 2) ;;
  e0 <- math_exp rt x0 ;;
  let blue_peak := (0.6 * e0)%float in
  c1 <- float_of_int (cct - 4000) ;;
  let phosphor_peak_wl := (580 - c1 * 0.02)%float in
  c2 <- float_of_int (cct - 3000) ;;
  let phosphor_width := (80 + c2 * 0.01)%float in
  n1 <- float_pow rt (float_of_Z wl - phosphor_peak_wl)%float 2 ;;
  d1 <- float_pow rt phosphor_width 2 ;;
  x1 <- truediv (- n1)%float (2 * d1)%float ;;
  e1 <- math_exp rt x1 ;;
  let phosphor := (0.8 * e1)%float in
  red_phosphor <-
    (if (cct <=? 4000)%Z then
       red_boost <- int_truediv (4000 - cct) 3000 ;;
       x2 <- int_truediv (- (wl - 620) ^ 2) (2 * 40 ^ 2) ;;
       e2 <- math_exp rt x2 ;;
       Ok (red_boost * 0.4 * e2)%float
     else Ok 0%float) ;;
  let intensity := (blue_peak + phosphor + red_phosphor)%float in
  s <- math_sin rt (float_of_Z wl * 0.1)%float ;;
  let intensity := (intensity * (1 + 0.02 * s))%float in
  Ok (wl, py_max2 0 intensity).

Definition generate_fake_spectrum (rt : Runtime) (cct : Z) : res (list (Z * float)) :=
  spectrum <- mapM (led_bin rt cct) (range 380 785 5) ;;
  normalize spectrum.

(** ** Instants: [datetime] values in UTC *)

Record datetime : Type := mkDatetime {
  year : Z; month : Z; day : Z;
  hour : Z; minute : Z; second : Z; microsecond : Z
}.

Definition is_leap (y : Z) : bool :=
  ((y mod 4 =? 0) && (negb (y mod 100 =? 0) || (y mod 400 =? 0)))%Z.

Definition days_before_year (y : Z) : Z :=
  let y1 := (y - 1)%Z in (y1 * 365 + y1 / 4 - y1 / 100 + y1 / 400)%Z.

Definition days_before_month (y m : Z) : Z :=
  (nth (Z.to_nat m) [-1; 0; 31; 59; 90; 120; 151; 181; 212; 243; 273; 304; 334] 0
   + (if (2 <? m) && is_leap y then 1 else 0))%Z.

Definition ymd2ord (y m d : Z) : Z :=
  (days_before_year y + days_before_month y m + d)%Z.

(** [(time - j2000)] in microseconds, for
    [j2000 = datetime(2000, 1, 1, 12, 0, 0, tzinfo=timezone.utc)]. *)
Definition microseconds_since_j2000 (t : datetime) : Z :=
  (((ymd2ord (year t) (month t) (day t) - ymd2ord 2000 1 1) * 86400
    + (hour t * 3600 + minute t * 60 + second t) - 43200) * 1000000
   + microsecond t)%Z.

Fixpoint zero_pad_fuel (fuel width : nat) (s : string) : string :=
  match fuel with
  | O => s
  | S f => if (String.length s <? width)%nat then zero_pad_fuel f width ("0" ++ s) else s
  end.

Definition zero_pad (width : nat) (s : string) : string := zero_pad_fuel width width s.

Definition pad2 (n : Z) : string := zero_pad 2 (str_int n).
Definition pad4 (n : Z) : string := zero_pad 4 (str_int n).

(** [t.strftime("%Y-%m-%d")] *)
Definition strftime_date (t : datetime) : string :=
  pad4 (year t) ++ "-" ++ pad2 (month t) ++ "-" ++ pad2 (day t).



(** ** Horizon transform: the simplified branch of [calculate_alt_az] *)

(** [math.radians] and [math.degrees]: a product with a constant. *)
Definition pi : float := 3.141592653589793%float.
Definition radians (x : float) : float := (x * (pi / 180))%float.
Definition degrees (x : float) : float := (x * (180 / pi))%float.

(** C's [fmod]: exact, with the sign of the dividend. *)
Definition fmod (x y : float) : float :=
  match Prim2SF x, Prim2SF y with
  | S754_nan, _ | _, S754_nan | S754_infinity _, _ | _, S754_zero _ => nan
  | _, S754_infinity _ | S754_zero _, _ => x
  | S754_finite sx mx ex, S754_finite _ my ey =>
      let e := Z.min ex ey in
      let r := Z.rem (Z.pos mx * 2 ^ (ex - e)) (Z.pos my * 2 ^ (ey - e)) in
      SF2Prim (binary_normalize prec emax (if sx then - r else r)%Z e sx)
  end.

(** [x % y] on floats. *)
Definition float_mod (x y : float) : res float :=
  if (y =? 0)%float then Raise ZeroDivisionError
  else
    let m := fmod x y in
    if (m =? 0)%float then Ok (if (y <? 0)%float then (-0)%float else 0%float)
    else if Bool.eqb (y <? 0)%float (m <? 0)%float then Ok m
    else Ok (m + y)%float.

Definition clamp_unit (x : float) : float := py_max2 (-1) (py_min2 1 x).

Definition calculate_alt_az (rt : Runtime) (star : Star) (lat lng : float)
    (time : datetime) : res (float * float) :=
  let ra_rad := radians (ra star) in
  let dec_rad := radians (dec star) in
  let lat_rad := radians lat in
  secs <- int_truediv (microseconds_since_j2000 time) 1000000 ;;
  let days_since_j2000 := (secs / 86400.0)%float in
  lst_deg <- float_mod (280.46 + 360.9856474 * days_since_j2000 + lng)%float 360 ;;
  let lst_rad := radians lst_deg in
  let ha_rad := (lst_rad - ra_rad)%float in
  sd <- math_sin rt dec_rad ;;
  sl <- math_sin rt lat_rad ;;
  cd <- math_cos rt dec_rad ;;
  cl <- math_cos rt lat_rad ;;
  ch <- math_cos rt ha_rad ;;
  let sin_alt := (sd * sl + cd * cl * ch)%float in
  a <- math_asin rt (clamp_unit sin_alt) ;;
  let alt := degrees a in
  sd' <- math_sin rt dec_rad ;;
  sl' <- math_sin rt lat_rad ;;
  cl' <- math_cos rt lat_rad ;;
  ca <- math_cos rt (radians alt) ;;
  cos_az <- truediv (sd' - sl' * sin_alt)%float (cl' * ca)%float ;;
  let cos_az := clamp_unit cos_az in
  b <- math_acos rt cos_az ;;
  let az := degrees b in
  sh <- math_sin rt ha_rad ;;
  let az := if (0 <? sh)%float then (360 - az)%float else az in
  Ok (alt, az).

(** ** Photometric file serializer for a star: [generate_tm33_for_star] *)

Definition nl : string := String (ascii_of_nat 10) EmptyString.

(** [int(10 ** ((0 - star.mag) / 2.5) * 1000)] *)
Definition rated_lumens (rt : Runtime) (star : Star) : res Z :=
  p <- float_pow rt 10 ((0 - mag star) / 2.5)%float ;;
  int_of_float (p * 1000)%float.

(** One pass of the [for gamma in range(0, 91, 5)] loop. *)
Definition star_intensity_line (rt : Runtime) (gamma : Z) : string :=
  let intensity := if (gamma =? 0)%Z then 1000.0%float else 0.0%float in
  "            <IntensityData horz=" ++ dq ++ "0" ++ dq ++ " vert=" ++ dq
  ++ str_int gamma ++ dq ++ ">" ++ float_fixed rt 1 intensity ++ "</IntensityData>" ++ nl.

(** The f-string the function returns. *)
Definition tm33_text (rt : Runtime) (now1 now2 : datetime) (star : Star)
    (temp lumens : Z) (intensity_data wavelengths values : string) : string :=
  "<?xml version=" ++ dq ++ "1.0" ++ dq ++ " encoding=" ++ dq ++ "UTF-8" ++ dq ++ "?>
<!--
  Stellar Photometry - " ++ name star ++ "
  Spectral Type: " ++ spectral_type star ++ "
  Temperature: " ++ str_int temp ++ "K
  Magnitude: " ++ float_repr rt (mag star) ++ "

  Generated for Astral Sky Demo - Tribute to Astrophysics
-->
<IESTM33-22>
    <Version>1.1</Version>
    <Header>
        <Manufacturer>Astral Sky Demo</Manufacturer>
        <CatalogNumber>" ++ replace_char " "%char "_"%char (name star) ++ "</CatalogNumber>
        <Description>Star: " ++ name star ++ " (" ++ spectral_type star ++ ")</Description>
        <Laboratory>Stellar Photometry Generator</Laboratory>
        <ReportNumber>STAR-" ++ replace_char " "%char "-"%char (name star) ++ "</ReportNumber>
        <ReportDate>" ++ strftime_date now1 ++ "</ReportDate>
        <DocumentCreator>astral_sky_demo.py</DocumentCreator>
        <DocumentCreationDate>" ++ strftime_date now2 ++ "</DocumentCreationDate>
    </Header>
    <Luminaire>
        <Dimensions>
            <Length>0</Length>
            <Width>0</Width>
            <Height>0</Height>
        </Dimensions>
        <Mounting>Celestial</Mounting>
        <NumEmitters>1</NumEmitters>
    </Luminaire>
    <Emitter>
        <ID>star-" ++ replace_char " "%char "-"%char (lower (name star)) ++ "</ID>
        <Description>" ++ name star ++ " - " ++ spectral_type star ++ " star</Description>
        <CatalogNumber>" ++ name star ++ "</CatalogNumber>
        <Quantity>1</Quantity>
        <RatedLumens>" ++ str_int lumens ++ "</RatedLumens>
        <InputWattage>0</InputWattage>
        <FixedCCT>" ++ str_int temp ++ "</FixedCCT>
        <Duv>0.000</Duv>
        <ColorRendering>
            <Ra>100</Ra>
        </ColorRendering>
        <LuminousData>
            <PhotometryType>CIE _ C</PhotometryType>
            <Metric>Luminous</Metric>
            <SymmType>Symm _ Full</SymmType>
            <Multiplier>1.0</Multiplier>
" ++ intensity_data ++ "        </LuminousData>
        <SpectralDistribution>
            <Wavelengths>" ++ wavelengths ++ "</Wavelengths>
            <Values>" ++ values ++ "</Values>
        </SpectralDistribution>
    </Emitter>
</IESTM33-22>
".

(** [now1] and [now2] are the two readings of the clock ([datetime.now()])
    the function takes, in the order it takes them. *)
Definition generate_tm33_for_star (rt : Runtime) (now1 now2 : datetime) (star : Star)
    : res string :=
  temp <- temperature star ;;
  spectrum <- generate_star_spectrum rt temp ;;
  let wavelengths := String.concat " " (map (fun '(wl, _) => str_int wl) spectrum) in
  let values := String.concat " " (map (fun '(_, v) => float_fixed rt 4 v) spectrum) in
  let intensity_data := String.concat "" (map (star_intensity_line rt) (range 0 91 5)) in
  lumens <- rated_lumens rt star ;;
  Ok (tm33_text rt now1 now2 star temp lumens intensity_data wavelengths values).

(** ** Product document composer: lines 511-628 of [generate_gldf_for_sky]

    Each section is a list of entries, one per pass of the loop that builds
    it; an entry holds the values the loop interpolates, and [render_*] is
    the f-string of the loop body.  The text of a section is the
    concatenation of its rendered entries, in order. *)

Record FileDef : Type := mkFileDef {
  file_id : string;
  file_name : string
}.

Record PhotometryDef : Type := mkPhotometryDef {
  photometry_id : string;
  photometry_file_ref : string
}.


Record EmitterDef : Type := mkEmitterDef {
  emitter_id : string;
  emitter_name : string;
  photometry_ref : string;
  light_source_ref : string;
  rated_luminous_flux : Z
}.








Definition dict (V : Type) : Type := list (string * V).

(** [d[k] = v]: an existing key keeps its place and takes the new value; a
    new key goes last. *)
Fixpoint dict_set {V : Type} (k : string) (v : V) (d : dict V) : dict V :=
  match d with
  | [] => [(k, v)]
  | (k', v') :: d' =>
      if String.eqb k' k then (k', v) :: d' else (k', v') :: dict_set k v d'
  end.

Fixpoint dict_get {V : Type} (k : string) (d : dict V) : option V :=
  match d with
  | [] => None
  | (k', v) :: d' => if String.eqb k' k then Some v else dict_get k d'
  end.

(** Lines 503-507: the stars above the horizon, with their positions. *)
Fixpoint visible_stars_of (rt : Runtime) (stars : list Star) (lat lng : float)
    (time : datetime) : res (list (Star * float * float)) :=
  match stars with
  | [] => Ok []
  | star :: stars' =>
      p <- calculate_alt_az rt star lat lng time ;;
      rest <- visible_stars_of rt stars' lat lng time ;;
      let '(alt, az) := p in
      Ok (if (0 <? alt)%float then (star, alt, az) :: rest else rest)
  end.

(** Lines 512-516.  [clock k] is the reading of the [k]-th call of
    [datetime.now]; [tick] counts the calls made so far. *)
Fixpoint build_tm33_files (rt : Runtime) (clock : nat -> datetime) (tick : nat)
    (visible_stars : list (Star * float * float)) (tm33_files : dict (string * string))
    : res (dict (string * string) * nat) :=
  match visible_stars with
  | [] => Ok (tm33_files, tick)
  | (star, _, _) :: rest =>
      let star_id := star_to_id rt star in
      let filename := star_id ++ ".iesxml" in
      content <- generate_tm33_for_star rt (clock tick) (clock (S tick)) star ;;
      build_tm33_files rt clock (S (S tick)) rest
        (dict_set star_id (filename, content) tm33_files)
  end.











(** ** Brightness groups of [generate_star_lisp]

    Lines 444-449.  [sorted_stars] is the list [sorted] returns, some
    arrangement of the visible stars; the groups do not depend on which. *)

Definition bright_stars (sorted_stars : list (Star * float * float))
    : list (Star * float * float) :=
  filter (fun '(s, alt, az) => (mag s <? 2.0)%float) sorted_stars.

Definition medium_stars (sorted_stars : list (Star * float * float))
    : list (Star * float * float) :=
  filter (fun '(s, alt, az) => (2.0 <=? mag s)%float && (mag s <? 3.5)%float) sorted_stars.

Definition dim_stars (sorted_stars : list (Star * float * float))
    : list (Star * float * float) :=
  filter (fun '(s, alt, az) => (3.5 <=? mag s)%float) sorted_stars.

(** ** scripts/enrich_aec_gldf.py *)

Definition CCTS : list Z := [3000; 3500; 4000; 5000; 6500]%Z.

Definition generate_tm30_values (rt : Runtime) (cct : Z) : res (Z * Z) :=
  let base_rf := 85%Z in
  let rf := (if cct <=? 3000 then base_rf + 5
             else if cct <=? 4000 then base_rf + 3
             else if cct <=? 5000 then base_rf
             else base_rf - 2)%Z in
  c <- float_of_int cct ;;
  s <- math_sin rt (c * 0.001)%float ;;
  d <- int_of_float (s * 3)%float ;;
  let rf := (rf + d)%Z in
  let rf := Z.max 70 (Z.min 95 rf) in
  c' <- float_of_int (cct - 4000) ;;
  g <- int_of_float (c' * 0.002)%float ;;
  let rg := (100 - g)%Z in
  let rg := Z.max 95 (Z.min 108 rg) in
  Ok (rf, rg).

(** [a / n] for a float [a] and an int [n]. *)
Definition float_div_int (a : float) (n : Z) : res float :=
  d <- float_of_int n ;; truediv a d.

Definition generate_cie_xy (rt : Runtime) (cct : Z) : res (float * float) :=
  x <- (if (cct <? 4000)%Z then
          a <- float_div_int (-0.2661239e9) (cct ^ 3) ;;
          b <- float_div_int 0.2343589e6 (cct ^ 2) ;;
          c <- float_div_int 0.8776956e3 cct ;;
          Ok (a - b + c + 0.179910)%float
        else
          a <- float_div_int (-3.0258469e9) (cct ^ 3) ;;
          b <- float_div_int 2.1070379e6 (cct ^ 2) ;;
          c <- float_div_int 0.2226347e3 cct ;;
          Ok (a + b + c + 0.240390)%float) ;;
  x3 <- float_pow rt x 3 ;;
  x2 <- float_pow rt x 2 ;;
  let y := (if (cct <? 2222)%Z then
              -1.1063814 * x3 - 1.34811020 * x2 + 2.18555832 * x - 0.20219683
            else if (cct <? 4000)%Z then
              -0.9549476 * x3 - 1.37418593 * x2 + 2.09137015 * x - 0.16748867
            else
              3.0817580 * x3 - 5.87338670 * x2 + 3.75112997 * x - 0.37001483)%float in
  Ok (py_round rt x 4, py_round rt y 4).

Definition c_planes : list Z := range 0 91 15.
Definition gamma_angles : list Z := range 0 91 5.

Definition generate_fake_photometry (rt : Runtime) (cct : Z) : res (list (list float)) :=
  w <- int_truediv (cct - 3000) 500 ;;
  let beam_width := (35 + w)%float in
  mapM (fun gamma =>
          mapM (fun c =>
                  b2 <- float_pow rt beam_width 2 ;;
                  x <- truediv (float_of_Z (- gamma ^ 2)) (2 * b2)%float ;;
                  e <- math_exp rt x ;;
                  let intensity := (1000 * e)%float in
                  s <- math_sin rt (radians (float_of_Z (c * 4))) ;;
                  let intensity := (intensity * (1 + 0.02 * s))%float in
                  Ok (py_max2 0 intensity))
               c_planes)
       gamma_angles.

Definition iesxml_text (cct rf rg wattage lumens : Z)
    (intensity_data wavelengths_str values_str : string) : string :=
  "<?xml version=" ++ dq ++ "1.0" ++ dq ++ " encoding=" ++ dq ++ "UTF-8" ++ dq ++ "?>
<!--
  IES TM-33-23 Complete Photometric Data File

  This file contains EVERYTHING - it's a complete replacement for IES/LDT:
  - Angular photometric data (C/γ intensity matrix)
  - Spectral power distribution (380-780nm)
  - Color metrics (CCT, CRI, TM-30 Rf/Rg, Duv)
  - Luminaire metadata

  CCT: " ++ str_int cct ++ "K | Rf: " ++ str_int rf ++ " | Rg: " ++ str_int rg ++ " | " ++ str_int wattage ++ "W | " ++ str_int lumens ++ "lm
-->
<IESTM33-22>
    <Version>1.1</Version>
    <Header>
        <Manufacturer>AEC Illuminazione</Manufacturer>
        <CatalogNumber>GA15-" ++ str_int cct ++ "K</CatalogNumber>
        <Description>GA15 Industrial LED Module - " ++ str_int cct ++ "K CCT</Description>
        <Laboratory>Demo Data Generator</Laboratory>
        <ReportNumber>GA15-TM33-" ++ str_int cct ++ "K</ReportNumber>
        <ReportDate>2024-01-15</ReportDate>
        <DocumentCreator>GLDF Demo Generator</DocumentCreator>
        <DocumentCreationDate>2024-01-15</DocumentCreationDate>
    </Header>
    <Luminaire>
        <Dimensions>
            <Length>300</Length>
            <Width>300</Width>
            <Height>120</Height>
        </Dimensions>
        <Mounting>Recessed</Mounting>
        <NumEmitters>1</NumEmitters>
    </Luminaire>
    <Emitter>
        <ID>led-" ++ str_int cct ++ "k</ID>
        <Description>LED Module " ++ str_int cct ++ "K</Description>
        <CatalogNumber>GA15-LED-" ++ str_int cct ++ "K</CatalogNumber>
        <Quantity>1</Quantity>
        <RatedLumens>" ++ str_int lumens ++ "</RatedLumens>
        <InputWattage>" ++ str_int wattage ++ "</InputWattage>
        <PowerFactor>0.95</PowerFactor>
        <BallastFactor>1.0</BallastFactor>
        <FixedCCT>" ++ str_int cct ++ "</FixedCCT>
        <Duv>0.000</Duv>
        <ColorRendering>
            <Ra>90</Ra>
            <R9>50</R9>
            <Rf>" ++ str_int rf ++ "</Rf>
            <Rg>" ++ str_int rg ++ "</Rg>
        </ColorRendering>
        <LuminousData>
            <PhotometryType>CIE _ C</PhotometryType>
            <Metric>Luminous</Metric>
            <SymmType>Symm _ Quad</SymmType>
            <Multiplier>1.0</Multiplier>
" ++ intensity_data ++ "        </LuminousData>
        <SpectralDistribution>
            <Wavelengths>" ++ wavelengths_str ++ "</Wavelengths>
            <Values>" ++ values_str ++ "</Values>
        </SpectralDistribution>
    </Emitter>
</IESTM33-22>
".

Definition generate_iesxml_content (rt : Runtime) (cct wattage : Z) : res string :=
  spectrum <- generate_fake_spectrum rt cct ;;
  tm30 <- generate_tm30_values rt cct ;;
  let '(rf, rg) := tm30 in
  _ <- generate_cie_xy rt cct ;;
  intensities <- generate_fake_photometry rt cct ;;
  w <- float_of_int (wattage - 30) ;;
  let efficacy := (150 - w * 0.3)%float in
  w' <- float_of_int wattage ;;
  lumens <- int_of_float (w' * efficacy)%float ;;
  let wavelengths_str := String.concat " " (map (fun '(wl, _) => str_int wl) spectrum) in
  let values_str := String.concat " " (map (fun '(_, i) => float_fixed rt 4 i) spectrum) in
  let intensity_data :=
    String.concat ""
      (map (fun '(gamma, row) =>
              String.concat ""
                (map (fun '(c, i) =>
                        "            <IntensityData horz=" ++ dq ++ str_int c ++ dq
                        ++ " vert=" ++ dq ++ str_int gamma ++ dq ++ ">"
                        ++ float_fixed rt 1 i ++ "</IntensityData>" ++ nl)
                     (combine c_planes row)))
           (combine gamma_angles intensities)) in
  Ok (iesxml_text cct rf rg wattage lumens intensity_data wavelengths_str values_str).

(** ** Entities of the two AEC documents

    The lists [generate_enriched_gldf] (lines 234-286) and
    [generate_spectral_gldf] (lines 480-558) build before they render them:
    each dict of the source is a record with the same keys. *)

Definition WATTAGES : list Z := [30; 50; 75; 100; 150; 200]%Z.
Definition OPTICS : list string := ["Narrow"; "Medium"; "Wide"; "Asymmetric"].
Definition LENGTHS : list Z := [600; 900; 1200; 1500; 1800]%Z.
Definition COLORS : list (string * string) :=
  [("RAL9003", "White"); ("RAL9005", "Black"); ("RAL9006", "Silver")].

Record LightSource : Type := mkLightSource {
  src_id : string;
  src_wattage : Z;
  src_cct : Z;
  src_lumens : Z;
  src_cri : Z;
  src_rf : Z;
  src_rg : Z;
  src_cie_x : float;
  src_cie_y : float;
  (** the two keys only [generate_spectral_gldf] sets *)
  src_spectrum_id : option string;
  src_photometry_id : option string
}.

Record AecEmitter : Type := mkAecEmitter {
  em_id : string;
  em_light_source_id : string;
  em_name : string;
  em_lumens : Z
}.

Record AecVariant : Type := mkAecVariant {
  var_id : string;
  var_product_number : string;
  var_name : string;
  var_length : Z;
  var_width : Z;
  var_height : Z;
  var_weight : float;
  var_emitter_id : string;
  (** the two keys only [generate_enriched_gldf] sets *)
  var_ral : option string;
  var_color_name : option string;
  (** the two keys only [generate_spectral_gldf] sets *)
  var_cct : option Z;
  var_wattage : option Z
}.

(** A loop nest that appends one item per pass of its inner loop. *)
Definition flat_mapM {A B : Type} (f : A -> res (list B)) (l : list A) : res (list B) :=
  ls <- mapM f l ;; Ok (List.concat ls).

(** The body of the light-source loops; [spectral] tells the two functions
    apart. *)
Definition light_source_of (rt : Runtime) (spectral : bool) (wattage cct : Z)
    : res LightSource :=
  let source_id := "led_" ++ str_int wattage ++ "W_" ++ str_int cct ++ "K" in
  w <- float_of_int (wattage - 30) ;;
  let efficacy := (150 - w * 0.3)%float in
  w' <- float_of_int wattage ;;
  lumens <- int_of_float (w' * efficacy)%float ;;
  tm30 <- generate_tm30_values rt cct ;;
  xy <- generate_cie_xy rt cct ;;
  let cri := if (5000 <=? cct)%Z then 80%Z else 90%Z in
  Ok (mkLightSource source_id wattage cct lumens cri (fst tm30) (snd tm30)
        (fst xy) (snd xy)
        (if spectral then Some ("spectrum_" ++ str_int cct ++ "K") else None)
        (if spectral then Some ("photometry_" ++ str_int cct ++ "K") else None)).

Definition light_sources_of (rt : Runtime) (spectral : bool) (wattages : list Z)
    : res (list LightSource) :=
  flat_mapM (fun wattage => mapM (light_source_of rt spectral wattage) CCTS) wattages.

(** Lines 258-265. *)
Definition enriched_emitters (light_sources : list LightSource) : list AecEmitter :=
  map (fun ls =>
         mkAecEmitter ("emitter_" ++ src_id ls) (src_id ls)
           ("LED Module " ++ str_int (src_wattage ls) ++ "W "
            ++ str_int (src_cct ls) ++ "K")
           (src_lumens ls))
      light_sources.

(** [2.0 + (length / 1000) * 1.5] *)
Definition variant_weight (length : Z) : res float :=
  q <- int_truediv length 1000 ;; Ok (2.0 + q * 1.5)%float.

(** The body of the innermost variant loop of lines 270-286, for the
    variant number [variant_num]; [optic[0]] is the first character of an
    optic, none of which is empty. *)
Definition enriched_variant (length : Z) (optic : string) (color : string * string)
    (ls : LightSource) (variant_num : Z) : res AecVariant :=
  let '(ral, color_name) := color in
  weight <- variant_weight length ;;
  Ok (mkAecVariant ("variant_" ++ str_int variant_num)
        ("GA15-" ++ str_int length ++ "-" ++ String.substring 0 1 optic ++ "-"
         ++ str_int (src_cct ls) ++ "K-" ++ str_int (src_wattage ls) ++ "W-" ++ ral)
        ("GA15 " ++ str_int length ++ "mm " ++ optic ++ " " ++ str_int (src_cct ls)
         ++ "K " ++ str_int (src_wattage ls) ++ "W " ++ color_name)
        length 120 80 weight ("emitter_" ++ src_id ls)
        (Some ral) (Some color_name) None None).

(** The passes of a loop nest, in the order the nest makes them. *)
Definition passes4 {A B C D : Type} (la : list A) (lb : list B) (lc : list C)
    (ld : list D) : list (A * B * C * D) :=
  flat_map (fun a =>
    flat_map (fun b =>
      flat_map (fun c => map (fun d => (a, b, c, d)) ld) lc) lb) la.

(** A loop that counts its passes from [variant_num] on. *)
Fixpoint numbered {A B : Type} (f : A -> Z -> res B) (variant_num : Z) (l : list A)
    : res (list B) :=
  match l with
  | [] => Ok []
  | a :: l' =>
      b <- f a variant_num ;;
      bs <- numbered f (variant_num + 1) l' ;;
      Ok (b :: bs)
  end.

(** Lines 268-286. *)
Definition enriched_variants (light_sources : list LightSource) : res (list AecVariant) :=
  numbered (fun '(length, optic, color, ls) => enriched_variant length optic color ls) 1
    (passes4 LENGTHS OPTICS COLORS (firstn 10 light_sources)).

(** Lines 234-286 of [generate_enriched_gldf]. *)
Definition enriched_entities (rt : Runtime)
    : res (list LightSource * list AecEmitter * list AecVariant) :=
  light_sources <- light_sources_of rt false WATTAGES ;;
  let emitters := enriched_emitters light_sources in
  variants <- enriched_variants light_sources ;;
  Ok (light_sources, emitters, variants).

(** The File, Photometry and Spectrum elements of lines 454-478, one of
    each per CCT: the values the three loops interpolate. *)
Definition spectral_files : list FileDef :=
  map (fun cct => mkFileDef ("photometry_" ++ str_int cct ++ "K")
                    ("GA15_" ++ str_int cct ++ "K.iesxml"))
      CCTS.

Definition spectral_photometries : list PhotometryDef :=
  map (fun cct => mkPhotometryDef ("photometry_" ++ str_int cct ++ "K")
                    ("photometry_" ++ str_int cct ++ "K"))
      CCTS.

(** A Spectrum element: its id and the fileId of its file reference. *)
Definition spectral_spectrums : list (string * string) :=
  map (fun cct => ("spectrum_" ++ str_int cct ++ "K", "photometry_" ++ str_int cct ++ "K"))
      CCTS.

(** [ls[key]] for a key a light source may lack. *)
Definition ls_getitem (v : option string) : res string :=
  match v with Some s => Ok s | None => Raise KeyError end.

(** The values the loop of lines 529-539 writes into each Emitter element. *)
Definition spectral_emitters (light_sources : list LightSource) : res (list EmitterDef) :=
  mapM (fun ls =>
          photometry_id <- ls_getitem (src_photometry_id ls) ;;
          Ok (mkEmitterDef ("emitter_" ++ src_id ls)
                ("LED Module " ++ str_int (src_wattage ls) ++ "W "
                 ++ str_int (src_cct ls) ++ "K")
                photometry_id (src_id ls) (src_lumens ls)))
       light_sources.

Definition spectral_variant (length : Z) (ls : LightSource) (variant_num : Z)
    : res AecVariant :=
  weight <- variant_weight length ;;
  Ok (mkAecVariant ("variant_" ++ str_int variant_num)
        ("GA15-" ++ str_int length ++ "-" ++ str_int (src_cct ls) ++ "K-"
         ++ str_int (src_wattage ls) ++ "W")
        ("GA15 " ++ str_int length ++ "mm " ++ str_int (src_cct ls) ++ "K "
         ++ str_int (src_wattage ls) ++ "W")
        length 120 80 weight ("emitter_" ++ src_id ls)
        None None (Some (src_cct ls)) (Some (src_wattage ls))).

(** Lines 542-558. *)
Definition spectral_variants (light_sources : list LightSource) : res (list AecVariant) :=
  numbered (fun '(length, ls) => spectral_variant length ls) 1
    (flat_map (fun length => map (fun ls => (length, ls)) light_sources)
       (firstn 2 LENGTHS)).

(** Lines 480-558 of [generate_spectral_gldf]. *)
Definition spectral_entities (rt : Runtime)
    : res (list LightSource * list EmitterDef * list AecVariant) :=
  light_sources <- light_sources_of rt true (firstn 3 WATTAGES) ;;
  emitters <- spectral_emitters light_sources ;;
  variants <- spectral_variants light_sources ;;
  Ok (light_sources, emitters, variants).

(** ** Container packager *)

(** A ZIP archive: its entries, in the order they were written. *)
Definition archive : Type := list (string * string).

(** [zf.read(name)]: the last entry of that name; KeyError without one. *)
Definition zip_read (z : archive) (n : string) : res string :=
  match dict_get n (rev z) with
  | Some data => Ok data
  | None => Raise KeyError
  end.

(** [zf.writestr(name, data)] *)
Definition writestr (z : archive) (n data : string) : archive :=
  (z ++ [(n, data)])%list.

(** Lines 423-432 of [generate_enriched_gldf]: [product_xml] is the
    document composed above them, [zin] the input archive. *)
Definition package_enriched (product_xml : string) (zin : archive) : res archive :=
  geometry_data <- zip_read zin "geometry/model.l3d" ;;
  photometry_data <- zip_read zin "ldc/photometry.ldt" ;;
  image_data <- zip_read zin "image/product.jpg" ;;
  let zout := writestr [] "product.xml" product_xml in
  let zout := writestr zout "geometry/model.l3d" geometry_data in
  let zout := writestr zout "ldc/photometry.ldt" photometry_data in
  let zout := writestr zout "image/product.jpg" image_data in
  Ok zout.

(** The [for cct in CCTS] loop of lines 656-660. *)
Fixpoint write_iesxml (rt : Runtime) (ccts : list Z) (zout : archive) : res archive :=
  match ccts with
  | [] => Ok zout
  | cct :: rest =>
      let wattage := 50%Z in
      iesxml_content <- generate_iesxml_content rt cct wattage ;;
      write_iesxml rt rest
        (writestr zout ("ldc/GA15_" ++ str_int cct ++ "K.iesxml") iesxml_content)
  end.

(** Lines 645-660 of [generate_spectral_gldf]. *)
Definition package_spectral (rt : Runtime) (product_xml : string) (zin : archive)
    : res archive :=
  geometry_data <- zip_read zin "geometry/model.l3d" ;;
  image_data <- zip_read zin "image/product.jpg" ;;
  let zout := writestr [] "product.xml" product_xml in
  let zout := writestr zout "geometry/model.l3d" geometry_data in
  let zout := writestr zout "image/product.jpg" image_data in
  write_iesxml rt CCTS zout.


(** ** A reference runtime

    A computable implementation of the [Runtime] interface: series
    evaluations of the C library's functions (accurate to a few units in the
    last place, not bit-identical to any libm), exact decimal conversions,
    and one fixed object identity.  It serves to run the generators on
    concrete inputs; no theorem about the generators depends on it. *)

Definition to_Z (x : float) : Z :=
  match int_of_float x with Ok z => z | Raise _ => 0%Z end.

Definition ln2 : float := 0.6931471805599453%float.
Definition half_pi : float := 1.5707963267948966%float.
Definition two_pi : float := 6.283185307179586%float.

(** [1 + r/i (1 + r/(i+1) (1 + ...))], [n] levels deep. *)
Fixpoint exp_horner (n : nat) (i r : float) : float :=
  match n with
  | O => 1%float
  | S n' => (1 + r / i * exp_horner n' (i + 1) r)%float
  end.

Definition exp_ref (x : float) : float :=
  if is_nan x then x
  else if (x <? -746)%float then 0%float
  else if (710 <? x)%float then infinity
  else
    let k := to_Z (x / ln2 + (if (x <? 0) then -0.5 else 0.5))%float in
    let r := (x - float_of_Z k * ln2)%float in
    Z.ldexp (exp_horner 22 1 r) k.

(** [1/k + s (1/(k+2) + s (...))], [n] levels deep. *)
Fixpoint odd_series (n : nat) (k s : float) : float :=
  match n with
  | O => (1 / k)%float
  | S n' => (1 / k + s * odd_series n' (k + 2) s)%float
  end.

(** Natural logarithm of a positive finite float. *)
Definition ln_ref (x : float) : float :=
  let '(m, e) := Z.frexp x in
  let t := ((m - 1) / (m + 1))%float in
  (float_of_Z e * ln2 + 2 * t * odd_series 24 1 (t * t))%float.

Fixpoint pow_nat (x : float) (n : nat) : float :=
  match n with
  | O => 1%float
  | S n' => (x * pow_nat x n')%float
  end.

Definition is_small_nat (y : float) : bool :=
  (0 <? y)%float && (y <=? 64)%float && (float_of_Z (to_Z y) =? y)%float.

(** [x ** y]: the special cases of the interpreter first, then the power
    itself; a result that overflows is an OverflowError. *)
Definition pow_ref (x y : float) : res float :=
  if (y =? 0)%float then Ok 1%float
  else if is_nan x then Ok x
  else if is_nan y then Ok (if (x =? 1)%float then 1%float else y)
  else if (x =? 0)%float then
    (if (y <? 0)%float then Raise ZeroDivisionError else Ok 0%float)
  else
    let r := if is_small_nat y then pow_nat x (Z.to_nat (to_Z y))
             else if (0 <? x)%float then exp_ref (y * ln_ref x)
             else nan in
    if is_infinity r && is_finite x && is_finite y then Raise OverflowError else Ok r.

(** [1 - s/(k (k+1)) (1 - s/((k+2) (k+3)) (1 - ...))], [n] levels deep. *)
Fixpoint alt_series (n : nat) (k s : float) : float :=
  match n with
  | O => 1%float
  | S n' => (1 - s / (k * (k + 1)) * alt_series n' (k + 2) s)%float
  end.

Definition sin_core (r : float) : float := (r * alt_series 14 2 (r * r))%float.
Definition cos_core (r : float) : float := alt_series 14 1 (r * r)%float.

(** The argument brought into [-pi, pi]. *)
Definition reduce_pi (x : float) : float :=
  let r := fmod x two_pi in
  if (pi <? r)%float then (r - two_pi)%float
  else if (r <? - pi)%float then (r + two_pi)%float
  else r.

Definition sin_ref (x : float) : res float :=
  if is_infinity x then Raise ValueError
  else
    let r := reduce_pi x in
    Ok (if (half_pi <? r)%float then sin_core (pi - r)
        else if (r <? - half_pi)%float then sin_core (- pi - r)
        else sin_core r).

Definition cos_ref (x : float) : res float :=
  if is_infinity x then Raise ValueError
  else
    let r := abs (reduce_pi x) in
    Ok (if (half_pi <? r)%float then (- cos_core (pi - r))%float else cos_core r).

(** [1/k - s (1/(k+2) - s (...))], [n] levels deep. *)
Fixpoint atan_series (n : nat) (k s : float) : float :=
  match n with
  | O => (1 / k)%float
  | S n' => (1 / k - s * atan_series n' (k + 2) s)%float
  end.

Definition atan_halved (t : float) : float := (t / (1 + sqrt (1 + t * t)))%float.

Definition atan_ref (t : float) : float :=
  let u := atan_halved (atan_halved (atan_halved t)) in
  (8 * (u * atan_series 14 1 (u * u)))%float.

Definition asin_small (x : float) : float := atan_ref (x / sqrt (1 - x * x))%float.

Definition asin_raw (x : float) : float :=
  if (abs x <=? 0.5)%float then asin_small x
  else
    let a := (half_pi - 2 * asin_small (sqrt ((1 - abs x) / 2)))%float in
    if (x <? 0)%float then (- a)%float else a.

Definition asin_ref (x : float) : res float :=
  if (1 <? abs x)%float then Raise ValueError
  else Ok (py_max2 (- half_pi) (py_min2 half_pi (asin_raw x))).

Definition acos_ref (x : float) : res float :=
  if (1 <? abs x)%float then Raise ValueError
  else Ok (py_max2 0 (py_min2 pi (half_pi - asin_raw x)%float)).

Definition exp_checked (x : float) : res float :=
  let r := exp_ref x in
  if is_infinity r && is_finite x then Raise OverflowError else Ok r.

(** Round half to even of [n / d] for [0 <= n] and [0 < d]. *)
Definition div_half_even (n d : Z) : Z :=
  let q := (n / d)%Z in
  let r := (n mod d)%Z in
  match (2 * r ?= d)%Z with
  | Lt => q
  | Gt => (q + 1)%Z
  | Eq => if Z.even q then q else (q + 1)%Z
  end.

(** The magnitude of a finite float times [10^n], rounded half to even. *)
Definition scaled_round (m : positive) (e : Z) (n : Z) : Z :=
  if (0 <=? e)%Z then (Z.pos m * 2 ^ e * 10 ^ n)%Z
  else div_half_even (Z.pos m * 10 ^ n) (2 ^ (- e)).

Definition fixed_digits (n : nat) (N : Z) : string :=
  let p := (10 ^ Z.of_nat n)%Z in
  str_int (N / p)
  ++ match n with
     | O => ""
     | S _ => "." ++ zero_pad n (str_int (N mod p))
     end.

(** [f"{x:.Nf}"] *)
Definition fixed_ref (n : nat) (x : float) : string :=
  match Prim2SF x with
  | S754_nan => "nan"
  | S754_infinity s => if s then "-inf" else "inf"
  | S754_zero s => (if s then "-" else "") ++ fixed_digits n 0
  | S754_finite s m e =>
      (if s then "-" else "") ++ fixed_digits n (scaled_round m e (Z.of_nat n))
  end.

(** [round(x, n)] for [0 <= n]. *)
Definition round_ref (x : float) (n : Z) : float :=
  match Prim2SF x with
  | S754_finite s m e =>
      let N := scaled_round m e n in
      match int_truediv (if s then - N else N) (10 ^ n) with
      | Ok r => r
      | Raise _ => x
      end
  | _ => x
  end.

(** Is [m * 2^e >= 10^k]? *)
Definition ge_pow10 (m : positive) (e k : Z) : bool :=
  (10 ^ Z.max k 0 * 2 ^ Z.max (- e) 0 <=? Z.pos m * 2 ^ Z.max e 0 * 10 ^ Z.max (- k) 0)%Z.

(** [floor (log10 (m * 2^e))] *)
Definition decimal_exponent (m : positive) (e : Z) : Z :=
  let k := (((Z.log2 (Z.pos m) + e) * 30103) / 100000 - 1)%Z in
  let k := if ge_pow10 m e (k + 1) then (k + 1)%Z else k in
  let k := if ge_pow10 m e (k + 1) then (k + 1)%Z else k in
  if ge_pow10 m e (k + 1) then (k + 1)%Z else k.

(** [m * 2^e] rounded half to even to [p] significant decimal digits:
    the digits as an integer, and the power of ten they are scaled by. *)
Definition to_digits (m : positive) (e : Z) (p : Z) : Z * Z :=
  let t := (p - 1 - decimal_exponent m e)%Z in
  let D := div_half_even (Z.pos m * 2 ^ Z.max e 0 * 10 ^ Z.max t 0)
                         (2 ^ Z.max (- e) 0 * 10 ^ Z.max (- t) 0) in
  (D, (- t)%Z).

Definition of_digits (D k : Z) : res float :=
  int_truediv (D * 10 ^ Z.max k 0) (10 ^ Z.max (- k) 0).

Fixpoint shortest_digits (fuel : nat) (p : Z) (m : positive) (e : Z) (x : float) : Z * Z :=
  let '(D, k) := to_digits m e p in
  match fuel with
  | O => (D, k)
  | S fuel' =>
      match of_digits D k with
      | Ok y => if (y =? x)%float then (D, k) else shortest_digits fuel' (p + 1) m e x
      | Raise _ => shortest_digits fuel' (p + 1) m e x
      end
  end.

Fixpoint strip_zeros (fuel : nat) (D k : Z) : Z * Z :=
  match fuel with
  | O => (D, k)
  | S fuel' => if ((D mod 10 =? 0) && negb (D =? 0))%Z then strip_zeros fuel' (D / 10) (k + 1) else (D, k)
  end.

Fixpoint zeros (n : nat) : string :=
  match n with O => "" | S n' => "0" ++ zeros n' end.

(** [repr] of a positive finite float whose shortest digits are [D * 10^k]. *)
Definition repr_digits (D k : Z) : string :=
  let ds := str_int D in
  let n := Z.of_nat (String.length ds) in
  let decpt := (n + k)%Z in
  if ((16 <? decpt) || (decpt <? -3))%Z then
    let ex := (decpt - 1)%Z in
    String.substring 0 1 ds
    ++ (if (1 <? n)%Z then "." ++ String.substring 1 (String.length ds - 1) ds else "")
    ++ "e" ++ (if (ex <? 0)%Z then "-" else "+") ++ zero_pad 2 (str_int (Z.abs ex))
  else if (decpt <=? 0)%Z then "0." ++ zeros (Z.to_nat (- decpt)) ++ ds
  else if (n <=? decpt)%Z then ds ++ zeros (Z.to_nat (decpt - n)) ++ ".0"
  else String.substring 0 (Z.to_nat decpt) ds ++ "."
       ++ String.substring (Z.to_nat decpt) (String.length ds - Z.to_nat decpt) ds.

Definition repr_ref (x : float) : string :=
  match Prim2SF x with
  | S754_nan => "nan"
  | S754_infinity s => if s then "-inf" else "inf"
  | S754_zero s => if s then "-0.0" else "0.0"
  | S754_finite s m e =>
      let '(D, k) := shortest_digits 17 1 m e (abs x) in
      let '(D, k) := strip_zeros 17 D k in
      (if s then "-" else "") ++ repr_digits D k
  end.

(** Decimal digits of a string, most significant first. *)
Fixpoint read_digits (s : string) (acc : Z) (n : Z) : Z * Z * string :=
  match s with
  | String c s' =>
      if is_digit c then read_digits s' (acc * 10 + Z.of_nat (nat_of_ascii c - 48)) (n + 1)
      else (acc, n, s)
  | EmptyString => (acc, n, s)
  end.

Definition read_sign (s : string) : bool * string :=
  match s with
  | String "-" s' => (true, s')
  | String "+" s' => (false, s')
  | _ => (false, s)
  end.

(** [int(s)] on a decimal literal. *)
Definition parse_int_ref (s : string) : res Z :=
  let '(neg, s1) := read_sign (strip s) in
  let '(v, n, rest) := read_digits s1 0 0 in
  if ((0 <? n)%Z && negb (truthy rest)) then Ok (if neg then - v else v)%Z
  else Raise ValueError.

(** [float(s)] on a decimal literal. *)
Definition parse_float_ref (s : string) : res float :=
  let '(neg, s1) := read_sign (strip s) in
  let '(ip, ni, s2) := read_digits s1 0 0 in
  let '(fp, nf, s3) :=
    match s2 with
    | String "." s2' => read_digits s2' ip 0
    | _ => (ip, 0%Z, s2)
    end in
  let '(ex, ok, s4) :=
    match s3 with
    | String c s3' =>
        if Ascii.eqb c "e" || Ascii.eqb c "E" then
          let '(eneg, s3'') := read_sign s3' in
          let '(ev, ne, rest) := read_digits s3'' 0 0 in
          ((if eneg then - ev else ev)%Z, (0 <? ne)%Z, rest)
        else (0%Z, true, s3)
    | EmptyString => (0%Z, true, s3)
    end in
  if (0 <? ni + nf)%Z && ok && negb (truthy s4) then
    match of_digits fp (ex - nf) with
    | Ok x => Ok (if neg then (- x)%float else x)
    | Raise _ => Ok (if neg then neg_infinity else infinity)
    end
  else Raise ValueError.

Definition rt0 : Runtime := {|
  math_exp := exp_checked;
  math_sin := sin_ref;
  math_cos := cos_ref;
  math_asin := asin_ref;
  math_acos := acos_ref;
  float_pow := pow_ref;
  py_round := round_ref;
  parse_float := parse_float_ref;
  parse_int := parse_int_ref;
  float_repr := repr_ref;
  float_fixed := fixed_ref;
  id_of := fun _ => 4370182416%Z
|}.

(** ** Vocabulary of the properties *)

(** [sub] occurs in [s]. *)
Definition Occurs (sub s : string) : Prop :=
  exists p q, s = p ++ sub ++ q.

Fixpoint containsb (s sub : string) : bool :=
  startswith s sub
  || match s with
     | EmptyString => false
     | String _ s' => containsb s' sub
     end.

(** Every identifier of [refs] is one of [ids]. *)
Definition resolves (refs ids : list string) : Prop :=
  Forall (fun r => In r ids) refs.

(** The slug list of a run: one slug per visible star, in order. *)
Definition slugs_of (rt : Runtime) (visible_stars : list (Star * float * float))
    : list string :=
  map (fun '(star, _, _) => star_to_id rt star) visible_stars.

(** A float is a number that is not negative. *)
Definition nonneg (x : float) : Prop := (0 <=? x)%float = true.

(** Sample inputs. *)
Definition polaris : Star :=
  mkStar "Polaris" None 37.954 89.264 2.02 "F7Ib" (Some 0.60%float).
Definition vega : Star :=
  mkStar "Vega" None 279.235 38.784 0.03 "A0V" (Some 0.00%float).
Definition sun : Star :=
  mkStar "Sun" None 0 0 (-26.74) "G2V" None.

Definition noon_2024_01_15 : datetime := mkDatetime 2024 1 15 12 0 0 0.
Definition late_2024_01_15 : datetime := mkDatetime 2024 1 15 23 59 59 0.
Definition noon_2024_01_16 : datetime := mkDatetime 2024 1 16 12 0 0 0.
Definition j2000 : datetime := mkDatetime 2000 1 1 12 0 0 0.







(** A clock that stands still, and one run of the composer on the reference
    runtime for each sample sky. *)
Definition still (t : datetime) : nat -> datetime := fun _ => t.



(** Sample input archives: the three payloads the packagers read, and the
    same with an empty image. *)
Definition zin_sample : archive :=
  [("product.xml", "<Root/>"); ("geometry/model.l3d", "L3D");
   ("ldc/photometry.ldt", "LDT"); ("image/product.jpg", "JPG")].

Definition zin_empty_image : archive :=
  [("geometry/model.l3d", "L3D"); ("ldc/photometry.ldt", "LDT");
   ("image/product.jpg", "")].

(** The archive name of the photometric file of one CCT. *)
Definition iesxml_name (cct : Z) : string := "ldc/GA15_" ++ str_int cct ++ "K.iesxml".


(** [m] raises nothing but the exceptions of [allowed]. *)
Definition raises_only {A : Type} (allowed : list exn) (m : res A) : Prop :=
  forall e, m = Raise e -> In e allowed.

(** Every character of [s] satisfies [p]. *)
Fixpoint string_forall (p : ascii -> bool) (s : string) : bool :=
  match s with
  | EmptyString => true
  | String c s' => p c && string_forall p s'
  end.

(** No string occurs twice in [l]. *)
Fixpoint nodupb (l : list string) : bool :=
  match l with
  | [] => true
  | x :: l' => negb (existsb (String.eqb x) l') && nodupb l'
  end.

(** Four rows of a catalogue: a star with a Hipparcos number, a row whose
    magnitude is not a number, a named star without a Hipparcos number, and
    a star fainter than any ceiling used here. *)
Definition sample_rows : list row :=
  [ [("id", "90979"); ("hip", "91262"); ("proper", "Vega"); ("ra", "18.61564");
     ("dec", "38.783692"); ("mag", "0.03"); ("spect", "A0Vvar"); ("ci", "-0.001")];
    [("id", "7"); ("hip", "8"); ("proper", ""); ("ra", "0.02"); ("dec", "25.9");
     ("mag", "bright"); ("spect", "M6e"); ("ci", "1.1")];
    [("id", "119617"); ("hip", ""); ("proper", "Nova Persei"); ("ra", "3.5");
     ("dec", "43.9"); ("mag", "0.2"); ("spect", ""); ("ci", "")];
    [("id", "12"); ("hip", "12"); ("proper", ""); ("ra", "0.03"); ("dec", "-35.96");
     ("mag", "8.59"); ("spect", "K4III"); ("ci", "1.489")] ].

(** The Wavelengths element both serializers write. *)
Definition wavelengths_line : string :=
  "<Wavelengths>" ++ String.concat " " (map str_int (range 380 781 5)) ++ "</Wavelengths>".

(** The [n] integers from [start] on. *)
Fixpoint zseq (start : Z) (n : nat) : list Z :=
  match n with
  | O => []
  | S n' => start :: zseq (start + 1) n'
  end.

(** What identifies a light source and what it refers to. *)
Definition source_keys (ls : LightSource) : string * option string * option string :=
  (src_id ls, src_spectrum_id ls, src_photometry_id ls).


(** [int(wattage * (150 - (wattage - 30) * 0.3))], the flux both documents
    and the photometric file derive from a wattage. *)
Definition flux_of_wattage (wattage : Z) : res Z :=
  w <- float_of_int (wattage - 30) ;;
  let efficacy := (150 - w * 0.3)%float in
  w' <- float_of_int wattage ;;
  int_of_float (w' * efficacy)%float.

(** A star whose magnitude is not a number, as a catalogue row with the
    magnitude "nan" gives one. *)
Definition nan_star : Star := mkStar "HYG 5" None 15 20 nan "" None.

(** ** Properties *)

Lemma bind_ok {A B : Type} (m : res A) (k : A -> res B) (b : B) :
  bind m k = Ok b -> exists a, m = Ok a /\ k a = Ok b.
Proof.
  destruct m as [a | e]; simpl; intro H.
  - exists a; split; [reflexivity | exact H].
  - discriminate H.
Qed.

Ltac bind_inv H :=
  let a := fresh "a" in
  let Ha := fresh "Ha" in
  apply bind_ok in H; destruct H as [a [Ha H]].

Lemma mapM_length {A B : Type} (f : A -> res B) (l : list A) (l' : list B) :
  mapM f l = Ok l' -> List.length l' = List.length l.
Proof.
  revert l'; induction l as [| a l IH]; simpl; intros l' H.
  - injection H as <-; reflexivity.
  - bind_inv H. bind_inv H. injection H as <-. simpl. f_equal. apply IH. assumption.
Qed.

Lemma mapM_map {A B C : Type} (f : A -> res B) (g : B -> C) (h : A -> C) :
  (forall a b, f a = Ok b -> g b = h a) ->
  forall l l', mapM f l = Ok l' -> map g l' = map h l.
Proof.
  intros Hf l; induction l as [| a l IH]; simpl; intros l' H.
  - injection H as <-; reflexivity.
  - bind_inv H. bind_inv H. injection H as <-. simpl. f_equal; auto.
Qed.

Lemma mapM_Forall2 {A B : Type} (f : A -> res B) (l : list A) (l' : list B) :
  mapM f l = Ok l' -> Forall2 (fun a b => f a = Ok b) l l'.
Proof.
  revert l'; induction l as [| a l IH]; simpl; intros l' H.
  - injection H as <-; constructor.
  - bind_inv H. bind_inv H. injection H as <-. constructor; auto.
Qed.

Lemma mapM_total {A B : Type} (f : A -> res B) (l : list A) :
  (forall a, In a l -> exists b, f a = Ok b) -> exists l', mapM f l = Ok l'.
Proof.
  induction l as [| a l IH]; simpl; intro H.
  - eexists; reflexivity.
  - destruct (H a (or_introl eq_refl)) as [b Hb].
    destruct IH as [l' Hl']; [intros; apply H; right; assumption |].
    rewrite Hb, Hl'. simpl. eexists; reflexivity.
Qed.

(** *** Temperature estimation *)



(** The table, letter by letter, on both cases of the letter. *)
Example kelvin_of_class_table :
  map kelvin_of_class ["O5V"; "b8Ia"; "A0V"; "F5IV-V"; "g2"; "K1.5III"; "M1Ia"; ""; "WN4"; "5"]
  = [35000; 20000; 9000; 7000; 5500; 4500; 3200; 5500; 5500; 5500]%Z.
Proof. reflexivity. Qed.

(** The mapping of the color index on the fifteen fallback stars, and on
    the two unbounded ends and a NaN. *)
Example temperature_of_fallback_stars :
  map temperature get_fallback_stars
  = map Ok [7500; 6750; 4425; 7500; 5500; 10300; 5400; 3000; 6400; 3000;
            3000; 12300; 5000; 7050; 6000]%Z.
Proof. vm_compute. reflexivity. Qed.

Example kelvin_of_bv_ends :
  map kelvin_of_bv [neg_infinity; (-0.31)%float; 1.5%float; infinity; nan]
  = map Ok [30000; 30000; 3000; 3000; 3000]%Z.
Proof. vm_compute. reflexivity. Qed.

(** *** Catalog loader *)

Lemma load_row_within_limit (rt : Runtime) (mag_limit : float) (r : row) (s : Star) :
  load_row rt mag_limit r = Ok (Some s) -> (mag_limit <? mag s)%float = false.
Proof.
  unfold load_row. intro H.
  bind_inv H. bind_inv H.
  destruct (mag_limit <? a0)%float eqn:Hlim; [discriminate H |].
  repeat bind_inv H.
  injection H as <-. simpl. exact Hlim.
Qed.

(** On the path that reads the catalogue, every star returned fails the
    test [mag > mag_limit]. *)
Lemma load_rows_within_limit (rt : Runtime) (mag_limit : float) (rows : list row) :
  forall stars, load_rows rt mag_limit rows = Ok stars ->
  Forall (fun s => (mag_limit <? mag s)%float = false) stars.
Proof.
  induction rows as [| r rows IH]; simpl; intros stars H.
  - injection H as <-; constructor.
  - destruct (load_row rt mag_limit r) as [[s |] | e] eqn:Hr.
    + bind_inv H. injection H as <-. constructor.
      * eapply load_row_within_limit; eassumption.
      * apply IH; assumption.
    + apply IH; assumption.
    + destruct e; try discriminate H; apply IH; assumption.
Qed.

(** C2. The fallback path of [load_hyg_catalogue] returns the fifteen
    hardcoded stars whatever the magnitude ceiling is: with the ceiling 1.0
    and no catalogue file, Polaris (magnitude 2.02) is in the output. *)
Theorem fallback_ignores_the_magnitude_ceiling (rt : Runtime) :
  load_hyg_catalogue rt None 1.0 = Ok get_fallback_stars
  /\ List.length get_fallback_stars = 15%nat
  /\ In polaris get_fallback_stars
  /\ (1.0 <? mag polaris)%float = true.
Proof.
  split; [reflexivity |]. split; [reflexivity |]. split.
  - unfold get_fallback_stars, BRIGHT_STARS, polaris. simpl. intuition.
  - vm_compute. reflexivity.
Qed.

(** *** Strings *)

Lemma append_nil_r (s : string) : s ++ "" = s.
Proof. induction s as [| c s IH]; simpl; [reflexivity | rewrite IH; reflexivity]. Qed.

Lemma append_assoc (a b c : string) : (a ++ b) ++ c = a ++ b ++ c.
Proof. induction a as [| x a IH]; simpl; [reflexivity | rewrite IH; reflexivity]. Qed.

Lemma string_tail_eq (c : ascii) (a b : string) : String c a = String c b -> a = b.
Proof. intro H; injection H as H; exact H. Qed.

Lemma append_inv_head (a x y : string) : a ++ x = a ++ y -> x = y.
Proof.
  induction a as [| c a IH]; simpl; intro H; [exact H |].
  injection H as H. apply IH. exact H.
Qed.

Lemma occurs_refl (s : string) : Occurs s s.
Proof. exists "", "". simpl. rewrite append_nil_r. reflexivity. Qed.

Lemma occurs_app_l (sub a b : string) : Occurs sub a -> Occurs sub (a ++ b).
Proof.
  intros [p [q ->]]. exists p, (q ++ b).
  rewrite !append_assoc. reflexivity.
Qed.

Lemma occurs_app_r (sub a b : string) : Occurs sub b -> Occurs sub (a ++ b).
Proof.
  intros [p [q ->]]. exists (a ++ p), q.
  rewrite !append_assoc. reflexivity.
Qed.

Lemma startswith_split (s sub : string) :
  startswith s sub = true -> exists q, s = sub ++ q.
Proof.
  revert s; induction sub as [| a sub IH]; intros s H.
  - exists s; reflexivity.
  - destruct s as [| b s]; simpl in H; [discriminate H |].
    apply Bool.andb_true_iff in H. destruct H as [Hc Hs].
    apply Ascii.eqb_eq in Hc. subst b.
    destruct (IH s Hs) as [q ->]. exists q; reflexivity.
Qed.

Lemma containsb_sound (s sub : string) : containsb s sub = true -> Occurs sub s.
Proof.
  induction s as [| c s IH]; intro H.
  - destruct sub as [| a sub]; [apply occurs_refl | discriminate H].
  - change (startswith (String c s) sub || containsb s sub = true) in H.
    apply Bool.orb_true_iff in H. destruct H as [H | H].
    + apply startswith_split in H. destruct H as [q Hq].
      exists "", q. simpl. exact Hq.
    + destruct (IH H) as [p [q ->]]. exists (String c p), q. reflexivity.
Qed.

(** Find [sub] in a text built with [++]: in the left piece if it is
    there, else further right; a piece that is not itself built with [++]
    is searched by computation. *)
Ltac occurs_search :=
  lazymatch goal with
  | |- Occurs _ (_ ++ _) =>
      first [ solve [apply occurs_app_l; occurs_search]
            | apply occurs_app_r; occurs_search ]
  | |- Occurs _ _ =>
      solve [apply occurs_refl | apply containsb_sound; vm_compute; reflexivity]
  end.

(** *** Product document composer *)


Lemma dict_get_set_same {V : Type} (k : string) (v : V) (d : dict V) :
  dict_get k (dict_set k v d) = Some v.
Proof.
  induction d as [| [k' v'] d IH]; simpl.
  - rewrite String.eqb_refl. reflexivity.
  - destruct (String.eqb k' k) eqn:E; simpl; rewrite E; [reflexivity | exact IH].
Qed.

Lemma dict_get_set_other {V : Type} (k k0 : string) (v : V) (d : dict V) :
  k <> k0 -> dict_get k0 (dict_set k v d) = dict_get k0 d.
Proof.
  intro Hne. induction d as [| [k' v'] d IH]; simpl.
  - destruct (String.eqb k k0) eqn:E; [apply String.eqb_eq in E; contradiction | reflexivity].
  - destruct (String.eqb k' k) eqn:E; simpl.
    + apply String.eqb_eq in E. subst k'.
      destruct (String.eqb k k0) eqn:E0; [apply String.eqb_eq in E0; contradiction | reflexivity].
    + destruct (String.eqb k' k0); [reflexivity | exact IH].
Qed.

(** Every entry of [tm33_files] maps a slug to the file name derived from
    that slug; the loop of lines 512-516 keeps it so and adds the slug of
    every visible star. *)
Definition names_from_slugs (d : dict (string * string)) : Prop :=
  forall k fn c, dict_get k d = Some (fn, c) -> fn = k ++ ".iesxml".

Lemma build_tm33_files_spec (rt : Runtime) (clock : nat -> datetime)
    (vs : list (Star * float * float)) :
  forall tick d d' tick',
    build_tm33_files rt clock tick vs d = Ok (d', tick') ->
    names_from_slugs d ->
    names_from_slugs d'
    /\ (forall k, In k (slugs_of rt vs) -> exists c, dict_get k d' = Some (k ++ ".iesxml", c))
    /\ (forall k v, dict_get k d = Some v -> exists v', dict_get k d' = Some v')
    /\ tick' = (tick + 2 * List.length vs)%nat.
Proof.
  induction vs as [| [[star alt] az] vs IH]; simpl; intros tick d d' tick' H Hd.
  - injection H as <- <-.
    split; [exact Hd |]. split; [intros k [] |]. split; [eauto | lia].
  - bind_inv H.
    assert (Hd1 : names_from_slugs
                    (dict_set (star_to_id rt star) (star_to_id rt star ++ ".iesxml", a) d)).
    { intros k fn c Hk.
      destruct (String.eqb_spec (star_to_id rt star) k) as [<- | Hne].
      - rewrite dict_get_set_same in Hk. injection Hk as <- _. reflexivity.
      - rewrite dict_get_set_other in Hk by assumption. eapply Hd; eassumption. }
    destruct (IH _ _ _ _ H Hd1) as [Hn [Hin [Hkeep Ht]]].
    split; [| split; [| split]].
    + exact Hn.
    + intros k [<- | Hk].
      * destruct (Hkeep (star_to_id rt star) _ (dict_get_set_same _ _ _)) as [[fn c] Hv].
        exists c. rewrite Hv. f_equal. f_equal. eapply Hn; eassumption.
      * apply Hin; assumption.
    + intros k v Hk.
      destruct (String.eqb_spec (star_to_id rt star) k) as [<- | Hne].
      * eapply Hkeep. apply dict_get_set_same.
      * eapply Hkeep. rewrite dict_get_set_other by assumption. eassumption.
    + lia.
Qed.













(** *** Rated flux of an emitter and rated lumens of its file *)

Lemma occurs_around (a x c l r t : string) :
  (exists l', l = l' ++ a) -> (exists r', r = c ++ r') ->
  Occurs (a ++ x ++ c) (l ++ x ++ r ++ t).
Proof.
  intros [l' ->] [r' ->]. exists l', (r' ++ t).
  rewrite !append_assoc. reflexivity.
Qed.

Lemma occurs_around_last (a x c l r : string) :
  (exists l', l = l' ++ a) -> (exists r', r = c ++ r') ->
  Occurs (a ++ x ++ c) (l ++ x ++ r).
Proof.
  intros Hl Hr. rewrite <- (append_nil_r r). apply occurs_around; assumption.
Qed.

(** Find [a ++ x ++ c] around the interpolated [x] of a text built with
    [++], where [a] ends one literal piece and [c] starts the next. *)
Ltac occurs_around_search :=
  repeat
    first
      [ match goal with
        | |- Occurs (?a ++ ?x ++ ?c) (?L ++ ?x ++ ?R) =>
            lazymatch R with _ ++ _ => fail | _ => idtac end;
            apply occurs_around_last;
            [ exists (String.substring 0 (String.length L - String.length a) L);
              vm_compute; reflexivity
            | exists (String.substring (String.length c)
                        (String.length R - String.length c) R);
              vm_compute; reflexivity ]
        end
      | match goal with
        | |- Occurs (?a ++ ?x ++ ?c) (?L ++ ?x ++ ?R ++ ?T) =>
            apply occurs_around;
            [ exists (String.substring 0 (String.length L - String.length a) L);
              vm_compute; reflexivity
            | exists (String.substring (String.length c)
                        (String.length R - String.length c) R);
              vm_compute; reflexivity ]
        end
      | apply occurs_app_r ].






(** *** Reproducibility of the serializers *)

(** C3, as amended.  The serializer of a star reads the clock twice, for
    ReportDate and DocumentCreationDate: its output is a function of the
    star and of the calendar dates of those two readings, so two
    invocations on the same star whose readings fall on the same dates
    return the same text (or raise the same exception).  The serializer of
    the LED fixture takes no reading of the clock: its two date fields are
    the constant 2024-01-15. *)
Theorem serializers_reproducible_up_to_the_date (rt : Runtime) (star : Star)
    (now1 now2 now1' now2' : datetime) :
  strftime_date now1 = strftime_date now1' ->
  strftime_date now2 = strftime_date now2' ->
  generate_tm33_for_star rt now1 now2 star = generate_tm33_for_star rt now1' now2' star
  /\ (forall cct wattage text,
         generate_iesxml_content rt cct wattage = Ok text ->
         Occurs "<ReportDate>2024-01-15</ReportDate>" text
         /\ Occurs "<DocumentCreationDate>2024-01-15</DocumentCreationDate>" text).
Proof.
  intros H1 H2. split.
  - unfold generate_tm33_for_star, tm33_text. rewrite H1, H2. reflexivity.
  - intros cct wattage text H. unfold generate_iesxml_content in H.
    bind_inv H. bind_inv H. destruct a0 as [rf rg].
    bind_inv H. bind_inv H. bind_inv H. bind_inv H. bind_inv H.
    injection H as <-. unfold iesxml_text. split; occurs_search.
Qed.

Lemma serializers_reproducible_up_to_the_date_witness :
  generate_tm33_for_star rt0 noon_2024_01_15 noon_2024_01_15 vega
  = generate_tm33_for_star rt0 late_2024_01_15 late_2024_01_15 vega
  /\ is_ok (generate_tm33_for_star rt0 noon_2024_01_15 noon_2024_01_15 vega) = true
  /\ is_ok (generate_iesxml_content rt0 5000 50) = true.
Proof.
  split; [| split; vm_compute; reflexivity].
  apply (serializers_reproducible_up_to_the_date rt0 vega
           noon_2024_01_15 noon_2024_01_15 late_2024_01_15 late_2024_01_15);
    vm_compute; reflexivity.
Defined.

(** C3 fails as stated: the same star serialized on two different days
    gives two different texts, for every runtime on which the serializer
    returns; on the reference runtime it returns. *)
Lemma star_serializer_depends_on_the_day :
  (forall rt t1 t2,
      generate_tm33_for_star rt noon_2024_01_15 noon_2024_01_15 vega = Ok t1 ->
      generate_tm33_for_star rt noon_2024_01_16 noon_2024_01_16 vega = Ok t2 ->
      t1 <> t2)
  /\ is_ok (generate_tm33_for_star rt0 noon_2024_01_15 noon_2024_01_15 vega) = true
  /\ is_ok (generate_tm33_for_star rt0 noon_2024_01_16 noon_2024_01_16 vega) = true.
Proof.
  split; [| split; vm_compute; reflexivity].
  intros rt t1 t2 H1 H2 E. subst t2.
  unfold generate_tm33_for_star in H1, H2.
  bind_inv H1. bind_inv H1. bind_inv H1. injection H1 as <-.
  rewrite Ha in H2. cbn [bind] in H2. rewrite Ha0 in H2. cbn [bind] in H2.
  rewrite Ha1 in H2. cbn [bind] in H2. injection H2 as H2.
  unfold tm33_text in H2.
  change (strftime_date noon_2024_01_16) with "2024-01-16" in H2.
  change (strftime_date noon_2024_01_15) with "2024-01-15" in H2.
  cbn [append name spectral_type vega] in H2.
  repeat first [apply string_tail_eq in H2 | apply append_inv_head in H2].
  discriminate H2.
Qed.

(** *** Container packager *)

Lemma write_iesxml_spec (rt : Runtime) (ccts : list Z) :
  forall zout zout',
    write_iesxml rt ccts zout = Ok zout' ->
    exists contents,
      mapM (fun cct => generate_iesxml_content rt cct 50) ccts = Ok contents
      /\ zout' = (zout ++ combine (map iesxml_name ccts) contents)%list.
Proof.
  induction ccts as [| cct ccts IH]; cbn [write_iesxml mapM map combine];
    intros zout zout' H.
  - injection H as <-. exists []. split; [reflexivity |]. rewrite app_nil_r. reflexivity.
  - bind_inv H. apply IH in H. destruct H as [contents [Hc ->]].
    exists (a :: contents). rewrite Ha, Hc. split; [reflexivity |].
    unfold writestr. rewrite <- app_assoc. reflexivity.
Qed.

Lemma iesxml_content_nonempty (rt : Runtime) (cct wattage : Z) (text : string) :
  generate_iesxml_content rt cct wattage = Ok text -> text <> "".
Proof.
  unfold generate_iesxml_content. intro H.
  bind_inv H. bind_inv H. destruct a0 as [rf rg].
  bind_inv H. bind_inv H. bind_inv H. bind_inv H. bind_inv H.
  injection H as <-. unfold iesxml_text. discriminate.
Qed.

(** C6, as amended.  Both packagers also copy the geometry model of the
    input archive, so an archive of one document, N photometric files and
    one image has N + 3 entries: N = 1 for [generate_enriched_gldf], N = 5
    (one file per CCT) for [generate_spectral_gldf].  Every entry holds its
    source payload byte for byte, and reading the archive back by name
    returns that payload; the generated photometric files are never empty,
    while the geometry, photometry and image payloads copied from the input
    archive are as long as they are there. *)
Theorem archives_hold_each_payload_and_the_geometry :
  (forall product_xml zin zout,
      package_enriched product_xml zin = Ok zout ->
      exists g p i,
        zip_read zin "geometry/model.l3d" = Ok g
        /\ zip_read zin "ldc/photometry.ldt" = Ok p
        /\ zip_read zin "image/product.jpg" = Ok i
        /\ zout = [("product.xml", product_xml); ("geometry/model.l3d", g);
                   ("ldc/photometry.ldt", p); ("image/product.jpg", i)]
        /\ List.length zout = (1 + 3)%nat
        /\ Forall (fun e => zip_read zout (fst e) = Ok (snd e)) zout)
  /\ (forall rt product_xml zin zout,
         package_spectral rt product_xml zin = Ok zout ->
         exists g i contents,
           zip_read zin "geometry/model.l3d" = Ok g
           /\ zip_read zin "image/product.jpg" = Ok i
           /\ mapM (fun cct => generate_iesxml_content rt cct 50) CCTS = Ok contents
           /\ zout = ([("product.xml", product_xml); ("geometry/model.l3d", g);
                       ("image/product.jpg", i)]
                      ++ combine (map iesxml_name CCTS) contents)%list
           /\ List.length zout = (List.length CCTS + 3)%nat
           /\ Forall (fun e => zip_read zout (fst e) = Ok (snd e)) zout
           /\ Forall (fun c => c <> "") contents).
Proof.
  split.
  - intros product_xml zin zout H. unfold package_enriched in H.
    bind_inv H. bind_inv H. bind_inv H. injection H as <-.
    exists a, a0, a1. repeat split; try assumption.
    repeat constructor.
  - intros rt product_xml zin zout H. unfold package_spectral in H.
    bind_inv H. bind_inv H. apply write_iesxml_spec in H.
    destruct H as [contents [Hc ->]].
    exists a, a0, contents. split; [assumption |]. split; [assumption |].
    split; [assumption |]. split; [reflexivity |].
    pose proof (mapM_length _ _ _ Hc) as Hlen.
    pose proof (mapM_Forall2 _ _ _ Hc) as Hall.
    destruct contents as [| c1 [| c2 [| c3 [| c4 [| c5 [| c6 contents]]]]]];
      try discriminate Hlen.
    split; [reflexivity |]. split.
    + repeat constructor.
    + inversion Hall as [| ? ? ? ? H1 Hall1]; subst.
      inversion Hall1 as [| ? ? ? ? H2 Hall2]; subst.
      inversion Hall2 as [| ? ? ? ? H3 Hall3]; subst.
      inversion Hall3 as [| ? ? ? ? H4 Hall4]; subst.
      inversion Hall4 as [| ? ? ? ? H5 Hall5]; subst.
      repeat constructor; eapply iesxml_content_nonempty; eassumption.
Qed.

(** C6 fails as stated: the archive [generate_enriched_gldf] builds from
    one document, one photometric file and one image has four entries, not
    three, the fourth being the geometry model; and with an empty image in
    the input archive the image entry has length zero. *)
Lemma enriched_archive_has_a_fourth_entry :
  (exists zout,
      package_enriched "<Root/>" zin_sample = Ok zout
      /\ List.length zout = 4%nat
      /\ List.length zout <> (1 + 2)%nat
      /\ In ("geometry/model.l3d", "L3D") zout)
  /\ (exists zout,
         package_enriched "<Root/>" zin_empty_image = Ok zout
         /\ zip_read zout "image/product.jpg" = Ok ""
         /\ String.length "" = 0%nat).
Proof.
  split; eexists; (split; [vm_compute; reflexivity |]).
  - split; [reflexivity |]. split; [discriminate |]. simpl. intuition.
  - split; reflexivity.
Qed.

Lemma archives_hold_each_payload_and_the_geometry_witness :
  (exists zout, package_enriched "<Root/>" zin_sample = Ok zout
                /\ List.length zout = (1 + 3)%nat)
  /\ (exists zout, package_spectral rt0 "<Root/>" zin_sample = Ok zout
                   /\ List.length zout = (5 + 3)%nat).
Proof.
  pose proof archives_hold_each_payload_and_the_geometry as [T1 T2].
  split.
  - assert (E : is_ok (package_enriched "<Root/>" zin_sample) = true)
      by (vm_compute; reflexivity).
    destruct (package_enriched "<Root/>" zin_sample) as [zout | e] eqn:H;
      [| discriminate E].
    exists zout. split; [reflexivity |].
    destruct (T1 _ _ _ H) as [g [p [i [_ [_ [_ [_ [Hlen _]]]]]]]]. exact Hlen.
  - assert (E : is_ok (package_spectral rt0 "<Root/>" zin_sample) = true)
      by (vm_compute; reflexivity).
    destruct (package_spectral rt0 "<Root/>" zin_sample) as [zout | e] eqn:H;
      [| discriminate E].
    exists zout. split; [reflexivity |].
    destruct (T2 _ _ _ _ H) as [g [i [cs [_ [_ [_ [_ [Hlen _]]]]]]]]. exact Hlen.
Defined.

(** *** Float comparisons *)

Lemma ltb_leb (x y : float) : (x <? y)%float = true -> (x <=? y)%float = true.
Proof.
  rewrite ltb_spec, leb_spec. unfold SFltb, SFleb.
  destruct (SFcompare (Prim2SF x) (Prim2SF y)) as [[]|]; congruence.
Qed.

Lemma ltb_zero_neq (m : float) : (0 <? m)%float = true -> (m =? 0)%float = false.
Proof.
  rewrite ltb_spec, eqb_spec.
  change (Prim2SF 0) with (S754_zero false).
  destruct (Prim2SF m) as [s|s| |s mm e]; try destruct s; cbv; congruence.
Qed.

Lemma py_max2_zero_nonneg (x : float) : nonneg (py_max2 0 x).
Proof.
  unfold nonneg, py_max2. destruct (0 <? x)%float eqn:E.
  - apply ltb_leb. exact E.
  - reflexivity.
Qed.

(** *** Normalisation *)

Lemma py_max_in (first : float) (rest : list float) :
  In (py_max first rest) (first :: rest).
Proof.
  unfold py_max. revert first. induction rest as [|b rest IH]; intros first.
  - left. reflexivity.
  - simpl fold_left. destruct (IH (py_max2 first b)) as [H|H].
    + unfold py_max2 in H at 1. destruct (first <? b)%float.
      * right. left. exact H.
      * left. exact H.
    + right. right. exact H.
Qed.

Lemma div_self (m : float) :
  (0 <? m)%float = true -> (m <? infinity)%float = true -> (m / m)%float = 1%float.
Proof.
  intros Hpos Hfin.
  rewrite <- (SF2Prim_Prim2SF (m / m)). rewrite div_spec.
  rewrite ltb_spec in Hpos, Hfin.
  change (Prim2SF 0) with (S754_zero false) in Hpos.
  change (Prim2SF infinity) with (S754_infinity false) in Hfin.
  destruct (Prim2SF m) as [s|s| |s mm e]; try destruct s; try discriminate.
  unfold SF64div, SFdiv.
  assert (C : SFdiv_core_binary prec emax (Z.pos mm) e (Z.pos mm) e
              = (9007199254740992%Z, (-53)%Z, SpecFloat.loc_Exact)).
  { unfold SFdiv_core_binary.
    rewrite !Z.sub_diag.
    change (Z.min (fexp prec emax 0) 0) with (-53)%Z.
    change (0 - -53)%Z with 53%Z.
    cbv iota beta.
    rewrite Z.shiftl_mul_pow2 by lia.
    pose proof (Z.div_eucl_eq (Z.pos mm * 2 ^ 53) (Z.pos mm) ltac:(lia)) as Hd.
    assert (Hq : (Z.pos mm * 2 ^ 53 / Z.pos mm = 2 ^ 53)%Z).
    { rewrite Z.mul_comm. apply Z.div_mul. lia. }
    assert (Hr : ((Z.pos mm * 2 ^ 53) mod Z.pos mm = 0)%Z).
    { rewrite Z.mul_comm. apply Z.mod_mul. lia. }
    unfold Z.div in Hq. unfold Z.modulo in Hr.
    destruct (Z.div_eucl (Z.pos mm * 2 ^ 53) (Z.pos mm)) as [q r].
    simpl in Hq, Hr. subst q r.
    unfold new_location. destruct (Z.even (Z.pos mm)); reflexivity. }
  rewrite C. vm_compute. reflexivity.
Qed.

Lemma normalize_spec (spectrum : list (Z * float)) :
  exists out,
    normalize spectrum = Ok out /\
    map fst out = map fst spectrum /\
    (((0 <? max_of spectrum)%float = true /\
      Forall2 (fun p q => snd q = (snd p / max_of spectrum)%float) spectrum out)
     \/ ((0 <? max_of spectrum)%float = false /\ out = spectrum)).
Proof.
  unfold normalize. destruct (0 <? max_of spectrum)%float eqn:E.
  - pose proof (ltb_zero_neq _ E) as Hz.
    generalize dependent (max_of spectrum). intros m _ Hz.
    assert (H : exists out,
               mapM (fun '(wl, i) => v <- truediv i m ;; Ok (wl, v)) spectrum = Ok out /\
               map fst out = map fst spectrum /\
               Forall2 (fun p q => snd q = (snd p / m)%float) spectrum out).
    { induction spectrum as [|[wl i] sp IH].
      - exists []. repeat split. constructor.
      - destruct IH as [out [H1 [H2 H3]]].
        exists ((wl, (i / m)%float) :: out).
        cbn [mapM]. unfold truediv at 1. rewrite Hz. cbn [bind].
        rewrite H1. cbn [bind]. split; [reflexivity|]. split.
        + cbn [map fst]. rewrite H2. reflexivity.
        + constructor; [reflexivity | exact H3]. }
    destruct H as [out [H1 [H2 H3]]]. exists out. auto.
  - exists spectrum. auto.
Qed.

(** X1. The normalisation both spectrum generators end with never raises
    and keeps the wavelengths, sample by sample: it divides every sample by
    the largest one when that is positive, and returns the curve as it is
    otherwise. *)
Theorem normalize_never_raises (spectrum : list (Z * float)) :
  exists out,
    normalize spectrum = Ok out /\
    map fst out = map fst spectrum /\
    (if (0 <? max_of spectrum)%float
     then Forall2 (fun p q => snd q = (snd p / max_of spectrum)%float) spectrum out
     else out = spectrum).
Proof.
  destruct (normalize_spec spectrum) as [out [H1 [H2 H3]]].
  exists out. split; [exact H1|]. split; [exact H2|].
  destruct H3 as [[E HF]|[E Hs]]; rewrite E; assumption.
Qed.

(** X2. When the largest sample of a curve is positive and finite, the
    normalised curve holds the value 1.0: the quotient of a finite positive
    float by itself is exactly 1.0. *)
Theorem normalized_peak_is_one (spectrum out : list (Z * float)) :
  spectrum <> [] ->
  (0 <? max_of spectrum)%float = true ->
  (max_of spectrum <? infinity)%float = true ->
  normalize spectrum = Ok out ->
  In 1%float (map snd out).
Proof.
  intros Hne Hpos Hfin Hn.
  destruct (normalize_spec spectrum) as [out' [H1 [H2 H3]]].
  rewrite Hn in H1. injection H1 as <-.
  destruct H3 as [[_ HF]|[E _]]; [|congruence].
  assert (Hin : In (max_of spectrum) (map snd spectrum)).
  { unfold max_of in *. destruct spectrum as [|[wl i] rest]; [congruence|].
    cbn [map snd]. apply py_max_in. }
  pose proof (div_self _ Hpos Hfin) as Hd.
  remember (max_of spectrum) as m eqn:Em.
  clear Em Hne Hpos Hfin Hn H2. revert Hin.
  induction HF as [|p q sp o Hpq HF IH]; cbn [map In]; intros Hin.
  - contradiction.
  - destruct Hin as [Hm|Hin].
    + left. rewrite Hpq, Hm. exact Hd.
    + right. apply IH. exact Hin.
Qed.

Lemma normalized_peak_is_one_witness :
  In 1%float (map snd [(380%Z, 0.25%float); (385%Z, 1%float); (390%Z, 0.5%float)]).
Proof.
  apply (normalized_peak_is_one [(380%Z, 0.5%float); (385%Z, 2%float); (390%Z, 1%float)]).
  - discriminate.
  - vm_compute. reflexivity.
  - vm_compute. reflexivity.
  - vm_compute. reflexivity.
Defined.

(** *** Sign of a quotient *)

Lemma shr_1_nonneg (mrs : shr_record) :
  (0 <= shr_m mrs)%Z -> (0 <= shr_m (shr_1 mrs))%Z.
Proof.
  destruct mrs as [m r s]. unfold shr_1. cbn [shr_m].
  destruct m as [|p|p]; [| destruct p | destruct p]; cbn [shr_m]; lia.
Qed.

Lemma iter_pos_shr_1_nonneg (p : positive) (mrs : shr_record) :
  (0 <= shr_m mrs)%Z -> (0 <= shr_m (iter_pos shr_1 p mrs))%Z.
Proof.
  revert mrs. induction p as [p IH|p IH|]; intros mrs H; cbn [iter_pos].
  - apply IH, IH, shr_1_nonneg, H.
  - apply IH, IH, H.
  - apply shr_1_nonneg, H.
Qed.

Lemma shr_fexp_nonneg (m e : Z) (l : location) :
  (0 <= m)%Z -> (0 <= shr_m (fst (shr_fexp prec emax m e l)))%Z.
Proof.
  intro H. unfold shr_fexp, shr.
  destruct (fexp prec emax (Zdigits2 m + e) - e)%Z as [|p|p]; cbn [fst].
  - destruct l as [|[]]; exact H.
  - apply iter_pos_shr_1_nonneg. destruct l as [|[]]; exact H.
  - destruct l as [|[]]; exact H.
Qed.

Lemma round_nearest_even_nonneg (m : Z) (l : location) :
  (0 <= m)%Z -> (0 <= round_nearest_even m l)%Z.
Proof.
  intro H. unfold round_nearest_even.
  destruct l as [|[]]; try destruct (Z.even m); lia.
Qed.

Lemma binary_round_aux_nonneg (m e : Z) (l : location) :
  (0 <= m)%Z ->
  SFleb (S754_zero false) (binary_round_aux prec emax false m e l) = true.
Proof.
  intro H. unfold binary_round_aux.
  pose proof (shr_fexp_nonneg m e l H) as H1.
  destruct (shr_fexp prec emax m e l) as [mrs' e']. cbn [fst] in H1.
  pose proof (shr_fexp_nonneg _ e' loc_Exact
                (round_nearest_even_nonneg _ (loc_of_shr_record mrs') H1)) as H2.
  destruct (shr_fexp prec emax
              (round_nearest_even (shr_m mrs') (loc_of_shr_record mrs')) e' loc_Exact)
    as [mrs'' e'']. cbn [fst] in H2.
  destruct (shr_m mrs'') as [|p|p]; [reflexivity | | lia].
  destruct (e'' <=? emax - prec)%Z; reflexivity.
Qed.

Lemma div_nonneg (i m : float) :
  nonneg i -> (0 <? m)%float = true -> (m <? infinity)%float = true ->
  nonneg (i / m)%float.
Proof.
  unfold nonneg. rewrite !leb_spec, !ltb_spec, div_spec.
  change (Prim2SF 0) with (S754_zero false).
  change (Prim2SF infinity) with (S754_infinity false).
  intros Hi Hpos Hfin.
  destruct (Prim2SF m) as [s|s| |s mm e]; try destruct s; try discriminate.
  destruct (Prim2SF i) as [s|s| |s mi ei]; try destruct s; try discriminate;
    try reflexivity.
  unfold SF64div, SFdiv. cbn [xorb].
  unfold SFdiv_core_binary.
  set (k := Z.min _ _).
  set (s := (ei - e - k)%Z).
  set (m' := match s with Z0 => Z.pos mi | Z.pos _ => Z.shiftl (Z.pos mi) s | Z.neg _ => 0%Z end).
  assert (Hm' : (0 <= m')%Z).
  { unfold m'. destruct s; try lia. rewrite Z.shiftl_mul_pow2 by lia.
    apply Z.mul_nonneg_nonneg; [lia | apply Z.pow_nonneg; lia]. }
  pose proof (Z.div_pos m' (Z.pos mm) ltac:(lia) ltac:(lia)) as Hq.
  unfold Z.div in Hq.
  destruct (Z.div_eucl m' (Z.pos mm)) as [q r]. cbn [fst] in Hq.
  apply binary_round_aux_nonneg. exact Hq.
Qed.

Lemma normalize_nonneg (spectrum out : list (Z * float)) :
  Forall nonneg (map snd spectrum) ->
  (max_of spectrum <? infinity)%float = true ->
  normalize spectrum = Ok out ->
  Forall nonneg (map snd out).
Proof.
  intros Hnn Hfin Hn.
  destruct (normalize_spec spectrum) as [out' [H1 [_ H3]]].
  rewrite Hn in H1. injection H1 as <-.
  destruct H3 as [[Hpos HF]|[_ ->]]; [| exact Hnn].
  remember (max_of spectrum) as m eqn:Em. clear Em Hn.
  induction HF as [|p q sp o Hpq HF IH]; cbn [map] in *.
  - constructor.
  - inversion Hnn as [|x l Hx Hl]; subst. constructor.
    + rewrite Hpq. apply div_nonneg; assumption.
    + apply IH. exact Hl.
Qed.

(** X3. Normalisation keeps a curve free of negative samples, provided its
    largest sample is finite. *)
Theorem normalize_keeps_samples_nonnegative (spectrum out : list (Z * float)) :
  Forall nonneg (map snd spectrum) ->
  (max_of spectrum <? infinity)%float = true ->
  normalize spectrum = Ok out ->
  Forall nonneg (map snd out).
Proof. exact (normalize_nonneg spectrum out). Qed.

Lemma normalize_keeps_samples_nonnegative_witness :
  Forall nonneg (map snd [(380%Z, 0.25%float); (385%Z, 1%float); (390%Z, 0%float)]).
Proof.
  apply (normalize_keeps_samples_nonnegative
           [(380%Z, 0.5%float); (385%Z, 2%float); (390%Z, 0%float)]).
  - repeat constructor.
  - vm_compute. reflexivity.
  - vm_compute. reflexivity.
Defined.

(** *** The two spectrum generators *)

Lemma mapM_raise {A B : Type} (f : A -> res B) (l : list A) (e : exn) :
  mapM f l = Raise e -> exists a, In a l /\ f a = Raise e.
Proof.
  induction l as [|a l IH]; cbn [mapM]; intro H.
  - discriminate.
  - destruct (f a) as [b|e'] eqn:Ea; cbn [bind] in H.
    + destruct (mapM f l) as [bs|e'']; cbn [bind] in H; [discriminate|].
      destruct (IH H) as [a' [Hin Ha']]. exists a'. split; [right; exact Hin | exact Ha'].
    + exists a. split; [left; reflexivity | congruence].
Qed.

Lemma star_bin_wavelength (rt : Runtime) (temperature wl : Z) (p : Z * float) :
  star_bin rt temperature wl = Ok p -> fst p = wl.
Proof.
  unfold star_bin. destruct (planck_bin rt temperature wl) as [i|[]]; intro H;
    try discriminate; injection H as <-; reflexivity.
Qed.

Lemma planck_bin_raises (rt : Runtime) (temperature wl : Z) (e : exn) :
  (forall x y, raises_only [OverflowError; ZeroDivisionError] (float_pow rt x y)) ->
  (forall x, raises_only [OverflowError] (math_exp rt x)) ->
  planck_bin rt temperature wl = Raise e ->
  e = OverflowError \/ e = ZeroDivisionError.
Proof.
  intros Hpow Hexp. unfold planck_bin.
  unfold float_of_int at 1.
  destruct (is_infinity _); cbn [bind]; [intro H; injection H as <-; auto|].
  unfold truediv at 1.
  destruct (_ =? 0)%float; cbn [bind]; [intro H; injection H as <-; auto|].
  destruct (700 <? _)%float; [discriminate|].
  destruct (float_pow rt _ 5) as [p|e'] eqn:Ep; cbn [bind].
  2:{ intro H; injection H as <-.
      destruct (Hpow _ _ _ Ep) as [<-|[<-|[]]]; auto. }
  unfold truediv at 1.
  destruct (p =? 0)%float; cbn [bind]; [intro H; injection H as <-; auto|].
  destruct (math_exp rt _) as [x|e'] eqn:Ee; cbn [bind].
  2:{ intro H; injection H as <-.
      destruct (Hexp _ _ Ee) as [<-|[]]; auto. }
  unfold truediv.
  destruct (_ =? 0)%float; [intro H; injection H as <-; auto | discriminate].
Qed.

(** X4. The blackbody proxy returns a curve for every integer temperature,
    with the 81 wavelengths 380, 385, ..., 780 in ascending order, whenever
    the power and the exponential of the library raise nothing but what
    CPython's do (OverflowError, and ZeroDivisionError for the power): the
    handler of each bin catches both, and the normalisation cannot raise. *)
Theorem blackbody_proxy_returns_81_samples (rt : Runtime) (temperature : Z) :
  (forall x y, raises_only [OverflowError; ZeroDivisionError] (float_pow rt x y)) ->
  (forall x, raises_only [OverflowError] (math_exp rt x)) ->
  exists curve,
    generate_star_spectrum rt temperature = Ok curve /\
    map fst curve = range 380 781 5 /\
    List.length curve = 81%nat.
Proof.
  intros Hpow Hexp. unfold generate_star_spectrum.
  destruct (mapM_total (star_bin rt temperature) (range 380 781 5)) as [raw Hraw].
  { intros wl _. unfold star_bin.
    destruct (planck_bin rt temperature wl) as [i|e] eqn:E; [eexists; reflexivity|].
    destruct (planck_bin_raises _ _ _ _ Hpow Hexp E) as [-> | ->]; eexists; reflexivity. }
  rewrite Hraw. cbn [bind].
  destruct (normalize_spec raw) as [curve [H1 [H2 _]]].
  exists curve. split; [exact H1|].
  assert (Hw : map fst curve = range 380 781 5).
  { rewrite H2.
    rewrite (mapM_map (star_bin rt temperature) fst (fun wl => wl)
               (star_bin_wavelength rt temperature) _ _ Hraw).
    apply map_id. }
  split; [exact Hw|].
  rewrite <- (length_map fst), Hw. reflexivity.
Qed.

Lemma pow_ref_raises (x y : float) :
  raises_only [OverflowError; ZeroDivisionError] (pow_ref x y).
Proof.
  intros e. unfold pow_ref.
  repeat match goal with
         | |- (if ?b then _ else _) = _ -> _ => destruct b
         | |- (let r := _ in _) = _ -> _ => cbv zeta
         end;
    intro H; try discriminate; injection H as <-; cbn [In]; auto.
Qed.

Lemma exp_checked_raises (x : float) : raises_only [OverflowError] (exp_checked x).
Proof.
  intros e. unfold exp_checked. cbv zeta.
  destruct (_ && _); intro H; [injection H as <-; left; reflexivity | discriminate].
Qed.

Lemma blackbody_proxy_returns_81_samples_witness :
  exists curve,
    generate_star_spectrum rt0 (-5000) = Ok curve /\
    map fst curve = range 380 781 5 /\
    List.length curve = 81%nat.
Proof.
  apply (blackbody_proxy_returns_81_samples rt0 (-5000)).
  - exact pow_ref_raises.
  - exact exp_checked_raises.
Defined.

Lemma mapM_const_zero (rt : Runtime) (temperature : Z) (l : list Z) :
  (forall wl, In wl l -> star_bin rt temperature wl = Ok (wl, 0%float)) ->
  mapM (star_bin rt temperature) l = Ok (map (fun wl => (wl, 0%float)) l).
Proof.
  induction l as [|wl l IH]; intro H; cbn [mapM map].
  - reflexivity.
  - rewrite (H wl (or_introl eq_refl)). cbn [bind].
    rewrite IH by (intros; apply H; right; assumption). reflexivity.
Qed.

(** X5. For the temperature 0, and for a temperature too large to convert
    to a float, the blackbody proxy returns the all-zero curve whatever the
    library does: every bin ends in the handler, and a curve without a
    positive sample is not divided. *)
Theorem degenerate_temperature_gives_the_zero_curve (rt : Runtime) (temperature : Z) :
  temperature = 0%Z \/ float_of_int temperature = Raise OverflowError ->
  generate_star_spectrum rt temperature
  = Ok (map (fun wl => (wl, 0%float)) (range 380 781 5)).
Proof.
  intros H. unfold generate_star_spectrum.
  rewrite mapM_const_zero.
  - cbn [bind]. vm_compute. reflexivity.
  - intros wl Hin. unfold star_bin, planck_bin. destruct H as [-> | ->].
    + change (float_of_int 0) with (Ok 0%float). cbn [bind].
      assert (Hz : (float_of_Z wl * 1e-9 * 1.381e-23 * 0 =? 0)%float = true).
      { assert (Hall : forallb (fun wl => (float_of_Z wl * 1e-9 * 1.381e-23 * 0 =? 0)%float)
                         (range 380 781 5) = true) by (vm_compute; reflexivity).
        rewrite forallb_forall in Hall. apply Hall. exact Hin. }
      unfold truediv at 1. rewrite Hz. reflexivity.
    + reflexivity.
Qed.

Lemma degenerate_temperature_gives_the_zero_curve_witness :
  generate_star_spectrum rt0 0 = Ok (map (fun wl => (wl, 0%float)) (range 380 781 5))
  /\ generate_star_spectrum rt0 (2 ^ 1024)
     = Ok (map (fun wl => (wl, 0%float)) (range 380 781 5)).
Proof.
  split.
  - apply (degenerate_temperature_gives_the_zero_curve rt0 0). left. reflexivity.
  - apply (degenerate_temperature_gives_the_zero_curve rt0 (2 ^ 1024)).
    right. vm_compute. reflexivity.
Defined.

Lemma led_bin_wavelength (rt : Runtime) (cct wl : Z) (p : Z * float) :
  led_bin rt cct wl = Ok p -> fst p = wl /\ nonneg (snd p).
Proof.
  unfold led_bin. intro H.
  repeat (bind_inv H). injection H as <-. cbn [fst snd].
  split; [reflexivity | apply py_max2_zero_nonneg].
Qed.

(** X6. A curve of the parametric LED model has the 81 wavelengths 380,
    385, ..., 780 in ascending order; its samples are non-negative before
    the normalisation, and after it too when the largest of them is
    finite. *)
Theorem led_curve_has_81_samples (rt : Runtime) (cct : Z) (curve : list (Z * float)) :
  generate_fake_spectrum rt cct = Ok curve ->
  map fst curve = range 380 785 5 /\
  List.length curve = 81%nat /\
  exists raw,
    mapM (led_bin rt cct) (range 380 785 5) = Ok raw /\
    normalize raw = Ok curve /\
    Forall nonneg (map snd raw) /\
    ((max_of raw <? infinity)%float = true -> Forall nonneg (map snd curve)).
Proof.
  unfold generate_fake_spectrum. intro H. bind_inv H. rename a into raw.
  destruct (normalize_spec raw) as [curve' [H1 [H2 _]]].
  rewrite H in H1. injection H1 as <-.
  assert (Hw : map fst curve = range 380 785 5).
  { rewrite H2.
    rewrite (mapM_map (led_bin rt cct) fst (fun wl => wl)
               (fun a b E => proj1 (led_bin_wavelength rt cct a b E)) _ _ Ha).
    apply map_id. }
  assert (Hnn : Forall nonneg (map snd raw)).
  { apply Forall_map. apply mapM_Forall2 in Ha.
    clear -Ha. induction Ha as [|wl p l l' Hp Ha IH]; constructor.
    - exact (proj2 (led_bin_wavelength _ _ _ _ Hp)).
    - exact IH. }
  split; [exact Hw|]. split; [rewrite <- (length_map fst), Hw; reflexivity|].
  exists raw. split; [exact Ha|]. split; [exact H|]. split; [exact Hnn|].
  intro Hfin. exact (normalize_nonneg raw curve Hnn Hfin H).
Qed.

Lemma led_curve_has_81_samples_witness :
  exists curve,
    generate_fake_spectrum rt0 4000 = Ok curve /\
    map fst curve = range 380 785 5 /\
    List.length curve = 81%nat /\
    Forall nonneg (map snd curve).
Proof.
  assert (E : is_ok (generate_fake_spectrum rt0 4000) = true) by (vm_compute; reflexivity).
  destruct (generate_fake_spectrum rt0 4000) as [curve|e] eqn:H; [|discriminate E].
  exists curve. split; [reflexivity|].
  destruct (led_curve_has_81_samples rt0 4000 curve H)
    as [Hw [Hl [raw [Hraw [_ [_ Hnn]]]]]].
  split; [exact Hw|]. split; [exact Hl|]. apply Hnn.
  assert (C : match mapM (led_bin rt0 4000) (range 380 785 5) with
              | Ok raw => (max_of raw <? infinity)%float
              | Raise _ => false
              end = true) by (vm_compute; reflexivity).
  rewrite Hraw in C. exact C.
Defined.

(** *** Catalog loader: the path that reads the file *)

Lemma bind_raise {A B : Type} (m : res A) (k : A -> res B) (e : exn) :
  bind m k = Raise e -> m = Raise e \/ exists a, m = Ok a /\ k a = Raise e.
Proof.
  destruct m as [a|e']; cbn [bind]; intro H.
  - right. exists a. split; [reflexivity | exact H].
  - left. injection H as ->. reflexivity.
Qed.

Ltac bind_raise H :=
  let a := fresh "a" in
  let Ha := fresh "Ha" in
  apply bind_raise in H; destruct H as [H | [a [Ha H]]].



Lemma load_rows_length (rt : Runtime) (mag_limit : float) (rows : list row) :
  forall stars, load_rows rt mag_limit rows = Ok stars ->
  (List.length stars <= List.length rows)%nat.
Proof.
  induction rows as [|r rows IH]; cbn [load_rows]; intros stars H.
  - injection H as <-. apply le_n.
  - cbn [List.length].
    destruct (load_row rt mag_limit r) as [[s|]|e].
    + bind_inv H. injection H as <-. cbn [List.length]. apply le_n_S, IH, Ha.
    + apply le_S, IH, H.
    + destruct e; try discriminate H; apply le_S, IH, H.
Qed.

(** X7. On the path that reads the catalogue, every star returned fails the
    test [mag > mag_limit] (so a star whose magnitude is not a number is
    kept), and there are no more stars than rows. *)
Theorem catalogue_stars_pass_the_ceiling (rt : Runtime) (rows : list row)
    (mag_limit : float) (stars : list Star) :
  load_hyg_catalogue rt (Some rows) mag_limit = Ok stars ->
  Forall (fun s => (mag_limit <? mag s)%float = false) stars
  /\ (List.length stars <= List.length rows)%nat.
Proof.
  cbn [load_hyg_catalogue]. intro H. split.
  - exact (load_rows_within_limit rt mag_limit rows stars H).
  - exact (load_rows_length rt mag_limit rows stars H).
Qed.

Lemma catalogue_stars_pass_the_ceiling_witness :
  exists stars,
    load_hyg_catalogue rt0 (Some sample_rows) 6.5 = Ok stars
    /\ Forall (fun s => (6.5 <? mag s)%float = false) stars
    /\ (List.length stars <= 4)%nat.
Proof.
  assert (E : is_ok (load_hyg_catalogue rt0 (Some sample_rows) 6.5) = true)
    by (vm_compute; reflexivity).
  destruct (load_hyg_catalogue rt0 (Some sample_rows) 6.5) as [stars|e] eqn:H;
    [|discriminate E].
  exists stars. split; [reflexivity|].
  exact (catalogue_stars_pass_the_ceiling rt0 sample_rows 6.5 stars H).
Defined.







(** *** Identifier derivation *)

Lemma filter_string_forall (p : ascii -> bool) (s : string) :
  string_forall p (filter_string p s) = true.
Proof.
  induction s as [|c s IH]; cbn [filter_string]; [reflexivity|].
  destruct (p c) eqn:E; [|exact IH]. cbn [string_forall]. rewrite E, IH. reflexivity.
Qed.

Lemma string_forall_impl (p q : ascii -> bool) (s : string) :
  (forall c, p c = true -> q c = true) ->
  string_forall p s = true -> string_forall q s = true.
Proof.
  intro Hpq. induction s as [|c s IH]; cbn [string_forall]; [reflexivity|].
  intro H. apply andb_prop in H. destruct H as [H1 H2].
  rewrite (Hpq c H1), (IH H2). reflexivity.
Qed.

Lemma digit_char_is_digit (d : Z) : (0 <= d < 10)%Z -> is_digit (digit_char d) = true.
Proof.
  intro H. unfold is_digit, digit_char. cbv zeta.
  rewrite nat_ascii_embedding by lia.
  apply andb_true_intro. split; apply Nat.leb_le; lia.
Qed.

Lemma digits_of_digits (fuel : nat) :
  forall n acc, (0 <= n)%Z -> string_forall is_digit acc = true ->
  string_forall is_digit (digits_of fuel n acc) = true.
Proof.
  induction fuel as [|fuel IH]; intros n acc Hn Hacc; cbn [digits_of]; [exact Hacc|].
  assert (Hacc' : string_forall is_digit (String (digit_char (n mod 10)) acc) = true).
  { cbn [string_forall]. rewrite digit_char_is_digit, Hacc; [reflexivity|].
    apply Z.mod_pos_bound. lia. }
  destruct (n <? 10)%Z; [exact Hacc'|].
  apply IH; [apply Z.div_pos; lia | exact Hacc'].
Qed.

Lemma str_int_digits (n : Z) : (0 <= n)%Z -> string_forall is_digit (str_int n) = true.
Proof.
  intro H. unfold str_int. destruct (n <? 0)%Z eqn:E; [apply Z.ltb_lt in E; lia|].
  unfold str_nat. apply digits_of_digits; [exact H | reflexivity].
Qed.

Lemma string_forall_app (p : ascii -> bool) (a b : string) :
  string_forall p (a ++ b) = string_forall p a && string_forall p b.
Proof.
  induction a as [|c a IH]; cbn [append string_forall]; [reflexivity|].
  rewrite IH. apply andb_assoc.
Qed.

(** X10. The identifier of a star is made of the characters a-z, 0-9 and _
    only, is not empty, and does not start with a digit (it may start with
    an underscore), provided the number it falls back on, the Hipparcos
    number or the object identity, is not negative. *)
Theorem star_id_is_an_identifier (rt : Runtime) (star : Star) :
  (forall n, hip_id star = Some n -> (0 <= n)%Z) ->
  (0 <= id_of rt star)%Z ->
  string_forall is_id_char (star_to_id rt star) = true
  /\ exists c rest, star_to_id rt star = String c rest /\ is_digit c = false.
Proof.
  intros Hhip Hid. unfold star_to_id. cbv zeta.
  pose proof (filter_string_forall is_id_char
                (replace_char "-" "_" (replace_char " " "_" (strip (lower (name star))))))
    as Hsafe.
  fold (safe_name_of (strip (lower (name star)))) in Hsafe.
  destruct (safe_name_of (strip (lower (name star)))) as [|c r].
  - cbn [truthy].
    set (n := match hip_id star with
              | Some n => if (n =? 0)%Z then id_of rt star else n
              | None => id_of rt star
              end).
    assert (Hn : (0 <= n)%Z).
    { unfold n. destruct (hip_id star) as [m|]; [|exact Hid].
      destruct (m =? 0)%Z; [exact Hid | apply Hhip; reflexivity]. }
    split.
    + rewrite string_forall_app. apply andb_true_intro. split; [reflexivity|].
      apply (string_forall_impl is_digit); [|apply str_int_digits; exact Hn].
      intros ch Hch. unfold is_id_char. rewrite Hch, orb_true_r. reflexivity.
    + exists "s"%char, ("tar_" ++ str_int n). split; reflexivity.
  - destruct (is_digit c) eqn:Ed.
    + cbn [append truthy]. split.
      * change (String "s" (String "t" (String "a" (String "r" (String "_" (String c r))))))
          with ("star_" ++ String c r).
        rewrite string_forall_app, Hsafe. reflexivity.
      * exists "s"%char, ("tar_" ++ String c r). split; reflexivity.
    + cbn [truthy]. split; [exact Hsafe|].
      exists c, r. split; [reflexivity | exact Ed].
Qed.

Lemma star_id_is_an_identifier_witness :
  string_forall is_id_char (star_to_id rt0 vega) = true
  /\ exists c rest, star_to_id rt0 vega = String c rest /\ is_digit c = false.
Proof.
  apply (star_id_is_an_identifier rt0 vega).
  - intros n H. discriminate H.
  - vm_compute. discriminate.
Defined.

(** *** The table of photometric files *)

Lemma dict_set_keys {V : Type} (k : string) (v : V) (d : dict V) (k' : string) :
  In k' (map fst (dict_set k v d)) <-> k' = k \/ In k' (map fst d).
Proof.
  induction d as [|[k0 v0] d IH]; cbn [dict_set].
  - cbn [map fst In]. intuition.
  - destruct (String.eqb k0 k) eqn:E.
    + apply String.eqb_eq in E. subst k0. cbn [map fst In]. intuition.
    + cbn [map fst In]. rewrite IH. intuition.
Qed.

Lemma dict_set_nodup {V : Type} (k : string) (v : V) (d : dict V) :
  NoDup (map fst d) -> NoDup (map fst (dict_set k v d)).
Proof.
  induction d as [|[k0 v0] d IH]; cbn [dict_set]; intro H.
  - cbn [map fst]. constructor; [intros [] | constructor].
  - destruct (String.eqb k0 k) eqn:E; [exact H|].
    cbn [map fst] in *. inversion H as [|x l Hx Hl]; subst. constructor.
    + rewrite dict_set_keys. intros [->|Hin]; [|exact (Hx Hin)].
      rewrite String.eqb_refl in E. discriminate.
    + apply IH. exact Hl.
Qed.

Lemma dict_set_entries {V : Type} (P : string -> V -> Prop) (k : string) (v : V)
    (d : dict V) :
  P k v -> Forall (fun kv => P (fst kv) (snd kv)) d ->
  Forall (fun kv => P (fst kv) (snd kv)) (dict_set k v d).
Proof.
  intros Hk. induction d as [|[k0 v0] d IH]; cbn [dict_set]; intro H.
  - constructor; [exact Hk | constructor].
  - inversion H as [|x l Hx Hl]; subst.
    destruct (String.eqb k0 k) eqn:E.
    + apply String.eqb_eq in E. subst k0. constructor; assumption.
    + constructor; [exact Hx | apply IH; exact Hl].
Qed.

Lemma build_tm33_files_table (rt : Runtime) (clock : nat -> datetime)
    (vs : list (Star * float * float)) :
  forall tick d d' tick',
    build_tm33_files rt clock tick vs d = Ok (d', tick') ->
    NoDup (map fst d) ->
    Forall (fun kv => fst (snd kv) = fst kv ++ ".iesxml") d ->
    NoDup (map fst d')
    /\ Forall (fun kv => fst (snd kv) = fst kv ++ ".iesxml") d'
    /\ (forall k, In k (map fst d') <-> In k (map fst d) \/ In k (slugs_of rt vs))
    /\ tick' = (tick + 2 * List.length vs)%nat.
Proof.
  induction vs as [|[[star alt] az] vs IH]; intros tick d d' tick' H Hnd Hnm.
  - cbn [build_tm33_files] in H. injection H as <- <-.
    split; [exact Hnd|]. split; [exact Hnm|]. split.
    + intro k. cbn [slugs_of map In]. intuition.
    + cbn [List.length]. lia.
  - cbn [build_tm33_files] in H. cbv zeta in H. bind_inv H.
    apply IH in H.
    + destruct H as [H1 [H2 [H3 H4]]].
      split; [exact H1|]. split; [exact H2|]. split.
      * intro k. rewrite H3, dict_set_keys. cbn [slugs_of map In].
        fold (slugs_of rt vs). intuition.
      * cbn [List.length]. lia.
    + apply dict_set_nodup. exact Hnd.
    + apply (dict_set_entries (fun k v => fst v = k ++ ".iesxml")); [reflexivity | exact Hnm].
Qed.

Lemma file_table_spec (rt : Runtime) (clock : nat -> datetime)
    (vs : list (Star * float * float)) (tm33_files : dict (string * string))
    (tick : nat) :
  build_tm33_files rt clock 0 vs [] = Ok (tm33_files, tick) ->
  NoDup (map fst tm33_files)
  /\ (forall k, In k (map fst tm33_files) <-> In k (slugs_of rt vs))
  /\ Forall (fun kv => fst (snd kv) = fst kv ++ ".iesxml") tm33_files
  /\ (List.length tm33_files <= List.length vs)%nat
  /\ tick = (2 * List.length vs)%nat.
Proof.
  intro H.
  destruct (build_tm33_files_table rt clock vs 0 [] tm33_files tick H)
    as [H1 [H2 [H3 H4]]]; [constructor | constructor |].
  assert (Hk : forall k, In k (map fst tm33_files) <-> In k (slugs_of rt vs)).
  { intro k. rewrite H3. cbn [map In]. intuition. }
  split; [exact H1|]. split; [exact Hk|]. split; [exact H2|]. split; [|exact H4].
  rewrite <- (length_map fst tm33_files).
  replace (List.length vs) with (List.length (slugs_of rt vs))
    by (unfold slugs_of; apply length_map).
  apply NoDup_incl_length; [exact H1|]. intros k Hin. apply Hk. exact Hin.
Qed.

(** X11. The table of photometric files the composer builds has one entry
    per distinct identifier among the visible stars, none twice, each named
    by its identifier followed by ".iesxml"; so it has no more entries than
    there are visible stars, and two stars with one identifier share an
    entry.  Building it reads the clock twice per star. *)
Theorem file_table_has_one_entry_per_identifier (rt : Runtime)
    (clock : nat -> datetime) (vs : list (Star * float * float))
    (tm33_files : dict (string * string)) (tick : nat) :
  build_tm33_files rt clock 0 vs [] = Ok (tm33_files, tick) ->
  NoDup (map fst tm33_files)
  /\ (forall k, In k (map fst tm33_files) <-> In k (slugs_of rt vs))
  /\ Forall (fun kv => fst (snd kv) = fst kv ++ ".iesxml") tm33_files
  /\ (List.length tm33_files <= List.length vs)%nat
  /\ tick = (2 * List.length vs)%nat.
Proof. exact (file_table_spec rt clock vs tm33_files tick). Qed.

Lemma file_table_has_one_entry_per_identifier_witness :
  exists tm33_files,
    build_tm33_files rt0 (still noon_2024_01_15) 0 [(vega, 45, 120); (vega, 45, 120)]%float []
    = Ok (tm33_files, 4%nat)
    /\ (List.length tm33_files <= 2)%nat.
Proof.
  assert (E : match build_tm33_files rt0 (still noon_2024_01_15) 0
                      [(vega, 45, 120); (vega, 45, 120)]%float [] with
              | Ok (_, tick) => Nat.eqb tick 4
              | Raise _ => false
              end = true) by (vm_compute; reflexivity).
  destruct (build_tm33_files rt0 (still noon_2024_01_15) 0
              [(vega, 45, 120); (vega, 45, 120)]%float []) as [[d tick]|e] eqn:H;
    [|discriminate E].
  apply Nat.eqb_eq in E. subst tick.
  exists d. split; [reflexivity|].
  exact (proj1 (proj2 (proj2 (proj2
           (file_table_has_one_entry_per_identifier rt0 _ _ d 4%nat H))))).
Defined.

(** *** The stars above the horizon *)

Lemma visible_stars_of_cons (rt : Runtime) (star : Star) (stars : list Star)
    (lat lng : float) (time : datetime) :
  visible_stars_of rt (star :: stars) lat lng time
  = (p <- calculate_alt_az rt star lat lng time ;;
     rest <- visible_stars_of rt stars lat lng time ;;
     let '(alt, az) := p in
     Ok (if (0 <? alt)%float then (star, alt, az) :: rest else rest)).
Proof. reflexivity. Qed.

Lemma visible_stars_spec (rt : Runtime) (stars : list Star)
    (lat lng : float) (time : datetime) (vs : list (Star * float * float)) :
  visible_stars_of rt stars lat lng time = Ok vs ->
  Forall (fun v => In (fst (fst v)) stars
                   /\ calculate_alt_az rt (fst (fst v)) lat lng time
                      = Ok (snd (fst v), snd v)
                   /\ (0 <? snd (fst v))%float = true) vs
  /\ (List.length vs <= List.length stars)%nat.
Proof.
  revert vs. induction stars as [|star stars IH]; intros vs H.
  - injection H as <-. split; [constructor | apply le_n].
  - rewrite visible_stars_of_cons in H.
    destruct (calculate_alt_az rt star lat lng time) as [[alt az]|e] eqn:Ha;
      [|discriminate H].
    destruct (visible_stars_of rt stars lat lng time) as [rest|e] eqn:Hr;
      [|discriminate H].
    cbn [bind] in H.
    destruct (IH rest eq_refl) as [IH1 IH2].
    assert (IH1' : Forall (fun v => In (fst (fst v)) (star :: stars)
                   /\ calculate_alt_az rt (fst (fst v)) lat lng time
                      = Ok (snd (fst v), snd v)
                   /\ (0 <? snd (fst v))%float = true) rest).
    { eapply Forall_impl; [|exact IH1]. cbn beta. intros v [V1 V2].
      split; [right; exact V1 | exact V2]. }
    destruct (0 <? alt)%float eqn:E; injection H as <-.
    + split.
      * constructor; [|exact IH1'].
        exact (conj (or_introl eq_refl) (conj Ha E)).
      * cbn [List.length]. apply le_n_S. exact IH2.
    + split; [exact IH1'|]. cbn [List.length]. apply le_S. exact IH2.
Qed.


(** X12. The visible stars of a run are stars of the catalogue, each with the
    position the horizon transform gives it and an altitude that passes the
    test [alt > 0]; there are no more of them than stars. *)
Theorem visible_stars_are_above_the_horizon (rt : Runtime) (stars : list Star)
    (lat lng : float) (time : datetime) (vs : list (Star * float * float)) :
  visible_stars_of rt stars lat lng time = Ok vs ->
  Forall (fun v => In (fst (fst v)) stars
                   /\ calculate_alt_az rt (fst (fst v)) lat lng time
                      = Ok (snd (fst v), snd v)
                   /\ (0 <? snd (fst v))%float = true) vs
  /\ (List.length vs <= List.length stars)%nat.
Proof. exact (visible_stars_spec rt stars lat lng time vs). Qed.

Lemma visible_stars_are_above_the_horizon_witness :
  exists vs,
    visible_stars_of rt0 [polaris; vega; sun] 51.77 7.44 noon_2024_01_15 = Ok vs
    /\ Forall (fun v => (0 <? snd (fst v))%float = true) vs
    /\ (List.length vs <= 3)%nat.
Proof.
  assert (E : is_ok (visible_stars_of rt0 [polaris; vega; sun] 51.77 7.44 noon_2024_01_15)
              = true) by (vm_compute; reflexivity).
  destruct (visible_stars_of rt0 [polaris; vega; sun] 51.77 7.44 noon_2024_01_15)
    as [vs|e] eqn:H; [|discriminate E].
  exists vs. split; [reflexivity|].
  destruct (visible_stars_are_above_the_horizon rt0 _ _ _ _ vs H) as [H1 H2].
  split; [|exact H2].
  eapply Forall_impl; [|exact H1]. cbn beta. intros v [_ [_ V]]. exact V.
Defined.

(** *** Horizon transform *)

Lemma clamp_unit_range (x : float) :
  (-1 <=? clamp_unit x)%float = true /\ (clamp_unit x <=? 1)%float = true.
Proof.
  unfold clamp_unit, py_min2, py_max2.
  destruct (x <? 1)%float eqn:E1.
  - destruct (-1 <? x)%float eqn:E2.
    + split; apply ltb_leb; assumption.
    + split; reflexivity.
  - change (-1 <? 1)%float with true. cbv iota. split; reflexivity.
Qed.

(** X13. The horizon transform calls the arcsine and the arccosine only on
    arguments between -1 and 1, whatever the sines and cosines it computed
    (a NaN is clamped to 1): the altitude is the arcsine of such an
    argument in degrees, and the azimuth is the arccosine [b] of such an
    argument in degrees, or 360 minus it. *)
Theorem inverse_functions_get_clamped_arguments (rt : Runtime) (star : Star)
    (lat lng : float) (time : datetime) (alt az : float) :
  calculate_alt_az rt star lat lng time = Ok (alt, az) ->
  exists x a y b,
    (-1 <=? x)%float = true /\ (x <=? 1)%float = true
    /\ math_asin rt x = Ok a /\ alt = degrees a
    /\ (-1 <=? y)%float = true /\ (y <=? 1)%float = true
    /\ math_acos rt y = Ok b
    /\ (az = degrees b \/ az = (360 - degrees b)%float).
Proof.
  unfold calculate_alt_az. cbv zeta. intro H.
  repeat bind_inv H.
  match goal with
  | Hs : math_asin rt (clamp_unit ?u) = Ok ?a,
    Hc : math_acos rt (clamp_unit ?w) = Ok ?b |- _ =>
      exists (clamp_unit u), a, (clamp_unit w), b;
      destruct (clamp_unit_range u) as [U1 U2];
      destruct (clamp_unit_range w) as [W1 W2];
      split; [exact U1|]; split; [exact U2|]; split; [exact Hs|];
      match type of H with
      | Ok (_, if ?t then _ else _) = _ =>
          destruct t; injection H as <- <-;
          (split; [reflexivity|]); (split; [exact W1|]); (split; [exact W2|]);
          (split; [exact Hc|]); [right | left]; reflexivity
      end
  end.
Qed.

Lemma inverse_functions_get_clamped_arguments_witness :
  exists alt az x a y b,
    calculate_alt_az rt0 vega 51.77 7.44 noon_2024_01_15 = Ok (alt, az)
    /\ (-1 <=? x)%float = true /\ (x <=? 1)%float = true
    /\ math_asin rt0 x = Ok a /\ alt = degrees a
    /\ (-1 <=? y)%float = true /\ (y <=? 1)%float = true
    /\ math_acos rt0 y = Ok b
    /\ (az = degrees b \/ az = (360 - degrees b)%float).
Proof.
  assert (E : is_ok (calculate_alt_az rt0 vega 51.77 7.44 noon_2024_01_15) = true)
    by (vm_compute; reflexivity).
  destruct (calculate_alt_az rt0 vega 51.77 7.44 noon_2024_01_15) as [[alt az]|e] eqn:H;
    [|discriminate E].
  destruct (inverse_functions_get_clamped_arguments rt0 _ _ _ _ alt az H)
    as [x [a [y [b T]]]].
  exists alt, az, x, a, y, b. split; [reflexivity | exact T].
Defined.

(** *** Colour metrics and photometry of the LED model *)

(** X14. The TM-30 values of the LED model are clamped: Rf lies between 70
    and 95 and Rg between 95 and 108, whatever the sine returns. *)
Theorem tm30_values_are_clamped (rt : Runtime) (cct rf rg : Z) :
  generate_tm30_values rt cct = Ok (rf, rg) ->
  (70 <= rf <= 95)%Z /\ (95 <= rg <= 108)%Z.
Proof.
  unfold generate_tm30_values. cbv zeta. intro H.
  repeat bind_inv H. injection H as <- <-. lia.
Qed.

Lemma tm30_values_are_clamped_witness :
  exists rf rg,
    generate_tm30_values rt0 6500 = Ok (rf, rg)
    /\ (70 <= rf <= 95)%Z /\ (95 <= rg <= 108)%Z.
Proof.
  assert (E : is_ok (generate_tm30_values rt0 6500) = true) by (vm_compute; reflexivity).
  destruct (generate_tm30_values rt0 6500) as [[rf rg]|e] eqn:H; [|discriminate E].
  exists rf, rg. split; [reflexivity|].
  exact (tm30_values_are_clamped rt0 6500 rf rg H).
Defined.

Lemma mapM_Forall {A B : Type} (f : A -> res B) (P : B -> Prop) (l : list A) (l' : list B) :
  (forall a b, f a = Ok b -> P b) -> mapM f l = Ok l' -> Forall P l'.
Proof.
  intros Hf H. apply mapM_Forall2 in H.
  induction H as [|a b l l' Hab H IH]; constructor; [exact (Hf a b Hab) | exact IH].
Qed.

(** X15. The intensity matrix of the LED model has 19 rows, one per gamma
    angle 0, 5, ..., 90, of 7 cells each, one per C-plane 0, 15, ..., 90,
    and no cell is negative. *)
Theorem photometry_is_a_19_by_7_grid (rt : Runtime) (cct : Z)
    (intensities : list (list float)) :
  generate_fake_photometry rt cct = Ok intensities ->
  List.length intensities = 19%nat
  /\ Forall (fun row => List.length row = 7%nat /\ Forall nonneg row) intensities.
Proof.
  unfold generate_fake_photometry. cbv zeta. intro H. bind_inv H. split.
  - rewrite (mapM_length _ _ _ H). reflexivity.
  - eapply mapM_Forall; [|exact H]. cbn beta. intros gamma row Hrow. split.
    + rewrite (mapM_length _ _ _ Hrow). reflexivity.
    + eapply mapM_Forall; [|exact Hrow]. cbn beta. intros c i Hi.
      repeat bind_inv Hi. injection Hi as <-. apply py_max2_zero_nonneg.
Qed.

Lemma photometry_is_a_19_by_7_grid_witness :
  exists intensities,
    generate_fake_photometry rt0 4000 = Ok intensities
    /\ List.length intensities = 19%nat
    /\ Forall (fun row => List.length row = 7%nat /\ Forall nonneg row) intensities.
Proof.
  assert (E : is_ok (generate_fake_photometry rt0 4000) = true) by (vm_compute; reflexivity).
  destruct (generate_fake_photometry rt0 4000) as [m|e] eqn:H; [|discriminate E].
  exists m. split; [reflexivity|].
  exact (photometry_is_a_19_by_7_grid rt0 4000 m H).
Defined.

(** *** The wavelength list of the two serializers *)

Lemma star_curve_wavelengths (rt : Runtime) (temperature : Z) (curve : list (Z * float)) :
  generate_star_spectrum rt temperature = Ok curve ->
  map fst curve = range 380 781 5.
Proof.
  unfold generate_star_spectrum. intro H. bind_inv H.
  destruct (normalize_spec a) as [curve' [H1 [H2 _]]].
  rewrite H in H1. injection H1 as <-. rewrite H2.
  rewrite (mapM_map (star_bin rt temperature) fst (fun wl => wl)
             (star_bin_wavelength rt temperature) _ _ Ha).
  apply map_id.
Qed.

Lemma led_curve_wavelengths (rt : Runtime) (cct : Z) (curve : list (Z * float)) :
  generate_fake_spectrum rt cct = Ok curve ->
  map fst curve = range 380 781 5.
Proof.
  unfold generate_fake_spectrum. intro H. bind_inv H.
  destruct (normalize_spec a) as [curve' [H1 [H2 _]]].
  rewrite H in H1. injection H1 as <-. rewrite H2.
  rewrite (mapM_map (led_bin rt cct) fst (fun wl => wl)
             (fun a b E => proj1 (led_bin_wavelength rt cct a b E)) _ _ Ha).
  rewrite map_id. vm_compute. reflexivity.
Qed.

Lemma wavelength_strings (spectrum : list (Z * float)) :
  map (fun '(wl, _) => str_int wl) spectrum = map str_int (map fst spectrum).
Proof.
  rewrite map_map. apply map_ext. intros [wl i]. reflexivity.
Qed.

(** X16. Both serializers write the same Wavelengths element, the 81
    wavelengths 380 385 ... 780 separated by single spaces, for every star,
    every CCT and every wattage. *)
Theorem serializers_write_the_fixed_wavelength_list (rt : Runtime) :
  (forall now1 now2 star text,
     generate_tm33_for_star rt now1 now2 star = Ok text -> Occurs wavelengths_line text)
  /\ (forall cct wattage text,
        generate_iesxml_content rt cct wattage = Ok text -> Occurs wavelengths_line text).
Proof.
  split.
  - intros now1 now2 star text H. unfold generate_tm33_for_star in H.
    bind_inv H. bind_inv H. bind_inv H. injection H as <-.
    rewrite wavelength_strings, (star_curve_wavelengths _ _ _ Ha0).
    unfold tm33_text, wavelengths_line. occurs_around_search.
  - intros cct wattage text H. unfold generate_iesxml_content in H.
    bind_inv H. bind_inv H. destruct a0 as [rf rg].
    repeat bind_inv H. injection H as <-.
    rewrite wavelength_strings, (led_curve_wavelengths _ _ _ Ha).
    unfold iesxml_text, wavelengths_line. occurs_around_search.
Qed.

Lemma serializers_write_the_fixed_wavelength_list_witness :
  (exists text,
     generate_tm33_for_star rt0 noon_2024_01_15 noon_2024_01_15 vega = Ok text
     /\ Occurs wavelengths_line text)
  /\ (exists text,
        generate_iesxml_content rt0 4000 50 = Ok text /\ Occurs wavelengths_line text).
Proof.
  destruct (serializers_write_the_fixed_wavelength_list rt0) as [T1 T2]. split.
  - assert (E : is_ok (generate_tm33_for_star rt0 noon_2024_01_15 noon_2024_01_15 vega)
                = true) by (vm_compute; reflexivity).
    destruct (generate_tm33_for_star rt0 noon_2024_01_15 noon_2024_01_15 vega)
      as [text|e] eqn:H; [|discriminate E].
    exists text. split; [reflexivity | exact (T1 _ _ _ _ H)].
  - assert (E : is_ok (generate_iesxml_content rt0 4000 50) = true)
      by (vm_compute; reflexivity).
    destruct (generate_iesxml_content rt0 4000 50) as [text|e] eqn:H; [|discriminate E].
    exists text. split; [reflexivity | exact (T2 _ _ _ H)].
Defined.

(** *** Entities of the AEC documents *)

Lemma nodupb_sound (l : list string) : nodupb l = true -> NoDup l.
Proof.
  induction l as [|x l IH]; cbn [nodupb]; intro H; constructor.
  - apply andb_prop in H. destruct H as [H _]. intro Hin.
    apply negb_true_iff in H.
    assert (E : existsb (String.eqb x) l = true).
    { apply existsb_exists. exists x. split; [exact Hin | apply String.eqb_refl]. }
    congruence.
  - apply andb_prop in H. apply IH, H.
Qed.

Lemma mapM_Forall_in {A B : Type} (f : A -> res B) (P : B -> Prop) (l : list A) :
  forall l', (forall a b, In a l -> f a = Ok b -> P b) -> mapM f l = Ok l' -> Forall P l'.
Proof.
  induction l as [|a l IH]; cbn [mapM]; intros l' Hf H.
  - injection H as <-. constructor.
  - bind_inv H. bind_inv H. injection H as <-. constructor.
    + exact (Hf a a0 (or_introl eq_refl) Ha).
    + apply IH; [|exact Ha0]. intros x y Hx. apply Hf. right. exact Hx.
Qed.

Lemma flat_mapM_map {A B C : Type} (f : A -> res (list B)) (g : B -> C)
    (k : A -> list C) (l : list A) (out : list B) :
  (forall a bs, f a = Ok bs -> map g bs = k a) ->
  flat_mapM f l = Ok out -> map g out = flat_map k l.
Proof.
  intros Hf H. unfold flat_mapM in H. bind_inv H. injection H as <-.
  rewrite concat_map, flat_map_concat_map. f_equal.
  exact (mapM_map f (map g) k Hf l a Ha).
Qed.

Lemma flat_mapM_Forall {A B : Type} (f : A -> res (list B)) (P : B -> Prop)
    (l : list A) (out : list B) :
  (forall a bs, In a l -> f a = Ok bs -> Forall P bs) ->
  flat_mapM f l = Ok out -> Forall P out.
Proof.
  intros Hf H. unfold flat_mapM in H. bind_inv H. injection H as <-.
  apply Forall_concat. exact (mapM_Forall_in f (Forall P) l a Hf Ha).
Qed.

Lemma light_source_of_fields (rt : Runtime) (spectral : bool) (wattage cct : Z)
    (ls : LightSource) :
  light_source_of rt spectral wattage cct = Ok ls ->
  source_keys ls
  = ("led_" ++ str_int wattage ++ "W_" ++ str_int cct ++ "K",
     if spectral then Some ("spectrum_" ++ str_int cct ++ "K") else None,
     if spectral then Some ("photometry_" ++ str_int cct ++ "K") else None)
  /\ src_wattage ls = wattage /\ src_cct ls = cct.
Proof.
  unfold light_source_of. cbv zeta. intro H.
  repeat bind_inv H. injection H as <-. repeat split.
Qed.

Lemma light_sources_of_keys (rt : Runtime) (spectral : bool) (wattages : list Z)
    (light_sources : list LightSource) :
  light_sources_of rt spectral wattages = Ok light_sources ->
  map source_keys light_sources
  = flat_map (fun wattage =>
                map (fun cct =>
                       ("led_" ++ str_int wattage ++ "W_" ++ str_int cct ++ "K",
                        if spectral then Some ("spectrum_" ++ str_int cct ++ "K") else None,
                        if spectral then Some ("photometry_" ++ str_int cct ++ "K") else None))
                    CCTS)
             wattages.
Proof.
  unfold light_sources_of. apply flat_mapM_map. intros wattage bs.
  apply mapM_map. intros cct ls H.
  exact (proj1 (light_source_of_fields rt spectral wattage cct ls H)).
Qed.

Lemma light_sources_of_ccts (rt : Runtime) (wattages : list Z)
    (light_sources : list LightSource) :
  light_sources_of rt true wattages = Ok light_sources ->
  Forall (fun ls => In (src_cct ls) CCTS
                    /\ src_spectrum_id ls = Some ("spectrum_" ++ str_int (src_cct ls) ++ "K")
                    /\ src_photometry_id ls
                       = Some ("photometry_" ++ str_int (src_cct ls) ++ "K"))
         light_sources.
Proof.
  unfold light_sources_of. apply flat_mapM_Forall. intros wattage bs _.
  apply mapM_Forall_in. intros cct ls Hin H.
  destruct (light_source_of_fields rt true wattage cct ls H) as [Hk [_ Hc]].
  unfold source_keys in Hk. injection Hk as _ Hs Hp.
  rewrite Hc. split; [exact Hin|]. split; assumption.
Qed.

Lemma zseq_length (start : Z) (n : nat) : List.length (zseq start n) = n.
Proof.
  revert start. induction n as [|n IH]; intro start; cbn [zseq List.length];
    [reflexivity | rewrite IH; reflexivity].
Qed.

Lemma numbered_map {A B C : Type} (f : A -> Z -> res B) (g : B -> C) (h : Z -> C)
    (l : list A) :
  (forall a k b, f a k = Ok b -> g b = h k) ->
  forall start out, numbered f start l = Ok out ->
  map g out = map h (zseq start (List.length l)).
Proof.
  intro Hf. induction l as [|a l IH]; cbn [numbered]; intros start out H.
  - injection H as <-. reflexivity.
  - bind_inv H. bind_inv H. injection H as <-.
    cbn [List.length zseq map]. rewrite (Hf _ _ _ Ha), (IH _ _ Ha0). reflexivity.
Qed.

Lemma numbered_Forall {A B : Type} (f : A -> Z -> res B) (P : B -> Prop) (l : list A) :
  forall start out,
    (forall a k b, In a l -> f a k = Ok b -> P b) ->
    numbered f start l = Ok out -> Forall P out.
Proof.
  induction l as [|a l IH]; cbn [numbered]; intros start out Hf H.
  - injection H as <-. constructor.
  - bind_inv H. bind_inv H. injection H as <-. constructor.
    + exact (Hf a start a0 (or_introl eq_refl) Ha).
    + apply (IH (start + 1)%Z); [|exact Ha0]. intros x k y Hx. apply Hf. right. exact Hx.
Qed.

Lemma numbered_length {A B : Type} (f : A -> Z -> res B) (l : list A) :
  forall start out, numbered f start l = Ok out -> List.length out = List.length l.
Proof.
  intros start out H.
  pose proof (numbered_map f (fun _ => tt) (fun _ => tt) l (fun _ _ _ _ => eq_refl)
                start out H) as E.
  apply (f_equal (@List.length unit)) in E.
  rewrite !length_map, zseq_length in E. exact E.
Qed.

Lemma flat_map_length_const {A B : Type} (f : A -> list B) (n : nat) (l : list A) :
  (forall a, List.length (f a) = n) -> List.length (flat_map f l) = (List.length l * n)%nat.
Proof.
  intro Hf. induction l as [|a l IH]; cbn [flat_map List.length]; [reflexivity|].
  rewrite length_app, Hf, IH. reflexivity.
Qed.

Lemma passes4_length {A B C D : Type} (la : list A) (lb : list B) (lc : list C)
    (ld : list D) :
  List.length (passes4 la lb lc ld)
  = (List.length la * (List.length lb * (List.length lc * List.length ld)))%nat.
Proof.
  unfold passes4.
  apply flat_map_length_const. intro a.
  apply flat_map_length_const. intro b.
  apply flat_map_length_const. intro c.
  apply length_map.
Qed.

Lemma passes4_in {A B C D : Type} (la : list A) (lb : list B) (lc : list C)
    (ld : list D) (p : A * B * C * D) :
  In p (passes4 la lb lc ld) -> In (snd p) ld.
Proof.
  unfold passes4. intro H.
  apply in_flat_map in H. destruct H as [a [_ H]].
  apply in_flat_map in H. destruct H as [b [_ H]].
  apply in_flat_map in H. destruct H as [c [_ H]].
  apply in_map_iff in H. destruct H as [d [<- H]]. exact H.
Qed.

Lemma variant_ids (n : nat) :
  (n <= 600)%nat ->
  NoDup (map (fun k => "variant_" ++ str_int k) (zseq 1 n)).
Proof.
  intro H.
  assert (N : NoDup (map (fun k => "variant_" ++ str_int k) (zseq 1 600))).
  { apply nodupb_sound. vm_compute. reflexivity. }
  assert (S : forall m start, zseq start (n + m) = (zseq start n ++ zseq (start + Z.of_nat n) m)%list).
  { clear. induction n as [|n IH]; intros m start.
    - cbn [zseq Nat.add app]. rewrite Z.add_0_r. reflexivity.
    - cbn [zseq Nat.add app]. rewrite IH. do 3 f_equal. lia. }
  replace 600%nat with (n + (600 - n))%nat in N by lia.
  rewrite S, map_app in N. exact (NoDup_app_remove_r _ _ N).
Qed.

(** X17. The entities [generate_enriched_gldf] builds: 30 light sources with
    distinct ids, one emitter per light source, referring to it, with
    distinct ids, and 600 variants numbered variant_1 to variant_600, each
    referring to the emitter of one of the first 10 light sources; the
    other 20 emitters are referred to by no variant. *)
Theorem enriched_entities_are_reference_closed (rt : Runtime)
    (light_sources : list LightSource) (emitters : list AecEmitter)
    (variants : list AecVariant) :
  enriched_entities rt = Ok (light_sources, emitters, variants) ->
  List.length light_sources = 30%nat
  /\ NoDup (map src_id light_sources)
  /\ map em_light_source_id emitters = map src_id light_sources
  /\ NoDup (map em_id emitters)
  /\ map var_id variants = map (fun k => "variant_" ++ str_int k) (zseq 1 600)
  /\ NoDup (map var_id variants)
  /\ resolves (map var_emitter_id variants) (firstn 10 (map em_id emitters)).
Proof.
  unfold enriched_entities. intro H. bind_inv H. bind_inv H.
  injection H as <- <- <-. rename a into ls. rename a0 into vs.
  pose proof (light_sources_of_keys rt false WATTAGES ls Ha) as Hk.
  assert (Hlen : List.length ls = 30%nat).
  { rewrite <- (length_map source_keys), Hk. vm_compute. reflexivity. }
  assert (Hids : map src_id ls = map (fun k => fst (fst k)) (map source_keys ls)).
  { rewrite map_map. reflexivity. }
  assert (Hem : map em_id (enriched_emitters ls)
                = map (fun k => "emitter_" ++ fst (fst k)) (map source_keys ls)).
  { unfold enriched_emitters. rewrite !map_map. reflexivity. }
  unfold enriched_variants in Ha0.
  set (passes := passes4 LENGTHS OPTICS COLORS (firstn 10 ls)) in Ha0.
  assert (Hp : List.length passes = 600%nat).
  { unfold passes. rewrite passes4_length, length_firstn, Hlen. reflexivity. }
  assert (Hv : map var_id vs = map (fun k => "variant_" ++ str_int k) (zseq 1 600)).
  { rewrite <- Hp. refine (numbered_map _ var_id _ passes _ 1%Z vs Ha0).
    intros [[[length optic] [ral color_name]] l] k v Hvk. unfold enriched_variant in Hvk.
    bind_inv Hvk. injection Hvk as <-. reflexivity. }
  split; [exact Hlen|]. split.
  { rewrite Hids, Hk. apply nodupb_sound. vm_compute. reflexivity. }
  split.
  { unfold enriched_emitters. rewrite map_map. reflexivity. }
  split.
  { rewrite Hem, Hk. apply nodupb_sound. vm_compute. reflexivity. }
  split; [exact Hv|]. split.
  { rewrite Hv. apply variant_ids. apply le_n. }
  unfold resolves. rewrite Forall_map.
  refine (numbered_Forall _ _ passes 1%Z vs _ Ha0).
  intros [[[length optic] [ral color_name]] l] k v Hin Hvk.
  apply passes4_in in Hin. cbn [snd] in Hin.
  unfold enriched_variant in Hvk. bind_inv Hvk. injection Hvk as <-. cbn [var_emitter_id].
  unfold enriched_emitters. rewrite !firstn_map, map_map.
  apply (in_map (fun ls => "emitter_" ++ src_id ls)) in Hin. exact Hin.
Qed.

Lemma enriched_entities_are_reference_closed_witness :
  exists light_sources emitters variants,
    enriched_entities rt0 = Ok (light_sources, emitters, variants)
    /\ List.length light_sources = 30%nat
    /\ NoDup (map var_id variants)
    /\ resolves (map var_emitter_id variants) (firstn 10 (map em_id emitters)).
Proof.
  assert (E : is_ok (enriched_entities rt0) = true) by (vm_compute; reflexivity).
  destruct (enriched_entities rt0) as [[[ls es] vs]|e] eqn:H; [|discriminate E].
  exists ls, es, vs. split; [reflexivity|].
  destruct (enriched_entities_are_reference_closed rt0 ls es vs H)
    as [H1 [_ [_ [_ [_ [H6 H7]]]]]].
  split; [exact H1|]. split; [exact H6 | exact H7].
Defined.

(** X18. The entities [generate_spectral_gldf] builds: 15 light sources with
    distinct ids, each with the spectrum and the photometry of its CCT; one
    emitter per light source, with distinct ids, whose photometry reference
    is the id of a Photometry element; Photometry and Spectrum elements
    whose file references are ids of File elements; and 30 variants with
    distinct ids, each referring to one of the emitters. *)
Theorem spectral_entities_are_reference_closed (rt : Runtime)
    (light_sources : list LightSource) (emitters : list EmitterDef)
    (variants : list AecVariant) :
  spectral_entities rt = Ok (light_sources, emitters, variants) ->
  List.length light_sources = 15%nat
  /\ NoDup (map src_id light_sources)
  /\ Forall (fun ls => exists s, src_spectrum_id ls = Some s
                                 /\ In s (map fst spectral_spectrums)) light_sources
  /\ map light_source_ref emitters = map src_id light_sources
  /\ NoDup (map emitter_id emitters)
  /\ resolves (map photometry_ref emitters) (map photometry_id spectral_photometries)
  /\ resolves (map photometry_file_ref spectral_photometries) (map file_id spectral_files)
  /\ resolves (map snd spectral_spectrums) (map file_id spectral_files)
  /\ map var_id variants = map (fun k => "variant_" ++ str_int k) (zseq 1 30)
  /\ NoDup (map var_id variants)
  /\ resolves (map var_emitter_id variants) (map emitter_id emitters).
Proof.
  unfold spectral_entities. intro H. bind_inv H. bind_inv H. bind_inv H.
  injection H as <- <- <-. rename a into ls. rename a0 into es. rename a1 into vs.
  pose proof (light_sources_of_keys rt true (firstn 3 WATTAGES) ls Ha) as Hk.
  pose proof (light_sources_of_ccts rt (firstn 3 WATTAGES) ls Ha) as Hc.
  assert (Hlen : List.length ls = 15%nat).
  { rewrite <- (length_map source_keys), Hk. vm_compute. reflexivity. }
  assert (Hids : map src_id ls = map (fun k => fst (fst k)) (map source_keys ls)).
  { rewrite map_map. reflexivity. }
  unfold spectral_emitters in Ha0.
  assert (Hem : map emitter_id es = map (fun ls => "emitter_" ++ src_id ls) ls).
  { refine (mapM_map _ emitter_id _ _ ls es Ha0).
    intros l e He. bind_inv He. injection He as <-. reflexivity. }
  unfold spectral_variants in Ha1.
  set (passes := flat_map (fun length => map (fun ls => (length, ls)) ls)
                   (firstn 2 LENGTHS)) in Ha1.
  assert (Hp : List.length passes = 30%nat).
  { unfold passes. rewrite (flat_map_length_const _ 15).
    - reflexivity.
    - intro a. rewrite length_map. exact Hlen. }
  assert (Hv : map var_id vs = map (fun k => "variant_" ++ str_int k) (zseq 1 30)).
  { rewrite <- Hp. refine (numbered_map _ var_id _ passes _ 1%Z vs Ha1).
    intros [length l] k v Hvk. unfold spectral_variant in Hvk.
    bind_inv Hvk. injection Hvk as <-. reflexivity. }
  split; [exact Hlen|]. split.
  { rewrite Hids, Hk. apply nodupb_sound. vm_compute. reflexivity. }
  split.
  { eapply Forall_impl; [|exact Hc]. cbn beta. intros l [Hin [Hs _]].
    eexists. split; [exact Hs|].
    unfold spectral_spectrums. rewrite map_map. cbn [fst].
    exact (in_map (fun cct => "spectrum_" ++ str_int cct ++ "K") _ _ Hin). }
  split.
  { refine (mapM_map _ light_source_ref _ _ ls es Ha0).
    intros l e He. bind_inv He. injection He as <-. reflexivity. }
  split.
  { rewrite Hem, <- (map_map src_id (fun s => "emitter_" ++ s)), Hids, Hk.
    apply nodupb_sound. vm_compute. reflexivity. }
  split.
  { unfold resolves. rewrite Forall_map.
    refine (mapM_Forall_in _ _ ls es _ Ha0).
    intros l e Hin He. bind_inv He. injection He as <-. cbn [photometry_ref].
    rewrite Forall_forall in Hc. destruct (Hc l Hin) as [Hcc [_ Hph]].
    rewrite Hph in Ha2. injection Ha2 as <-.
    unfold spectral_photometries. rewrite map_map. cbn [photometry_id].
    exact (in_map (fun cct => "photometry_" ++ str_int cct ++ "K") _ _ Hcc). }
  split.
  { unfold resolves. apply Forall_forall. intros x Hx.
    unfold spectral_photometries, spectral_files in *. rewrite map_map in *. exact Hx. }
  split.
  { unfold resolves. apply Forall_forall. intros x Hx.
    unfold spectral_spectrums, spectral_files in *. rewrite map_map in *. exact Hx. }
  split; [exact Hv|]. split.
  { rewrite Hv. apply variant_ids. lia. }
  unfold resolves. rewrite Forall_map.
  refine (numbered_Forall _ _ passes 1%Z vs _ Ha1).
  intros [length l] k v Hin Hvk.
  unfold passes in Hin. apply in_flat_map in Hin. destruct Hin as [len [_ Hin]].
  apply in_map_iff in Hin. destruct Hin as [l' [E Hin]]. injection E as _ ->.
  unfold spectral_variant in Hvk. bind_inv Hvk. injection Hvk as <-. cbn [var_emitter_id].
  rewrite Hem. exact (in_map (fun ls => "emitter_" ++ src_id ls) _ _ Hin).
Qed.

Lemma spectral_entities_are_reference_closed_witness :
  exists light_sources emitters variants,
    spectral_entities rt0 = Ok (light_sources, emitters, variants)
    /\ List.length light_sources = 15%nat
    /\ resolves (map photometry_ref emitters) (map photometry_id spectral_photometries)
    /\ resolves (map var_emitter_id variants) (map emitter_id emitters).
Proof.
  assert (E : is_ok (spectral_entities rt0) = true) by (vm_compute; reflexivity).
  destruct (spectral_entities rt0) as [[[ls es] vs]|e] eqn:H; [|discriminate E].
  exists ls, es, vs. split; [reflexivity|].
  destruct (spectral_entities_are_reference_closed rt0 ls es vs H)
    as [H1 [_ [_ [_ [_ [H6 [_ [_ [_ [_ H11]]]]]]]]]].
  split; [exact H1|]. split; [exact H6 | exact H11].
Defined.

Lemma map_fst_combine {A B : Type} (l : list A) :
  forall l' : list B, List.length l = List.length l' -> map fst (combine l l') = l.
Proof.
  induction l as [|a l IH]; intros [|b l'] H; cbn [combine map fst]; try discriminate H.
  - reflexivity.
  - rewrite IH; [reflexivity|]. injection H as H. exact H.
Qed.

(** X19. Every File element of the TM-33 document names a file the packager
    writes: the archive [generate_spectral_gldf] builds has, for each File,
    an entry "ldc/" followed by the file name. *)
Theorem spectral_files_are_packaged (rt : Runtime) (product_xml : string)
    (zin zout : archive) :
  package_spectral rt product_xml zin = Ok zout ->
  resolves (map (fun f => "ldc/" ++ file_name f) spectral_files) (map fst zout).
Proof.
  unfold package_spectral. intro H. bind_inv H. bind_inv H. cbv zeta in H.
  apply write_iesxml_spec in H. destruct H as [contents [Hc ->]].
  apply mapM_length in Hc.
  unfold resolves. apply Forall_forall. intros x Hx.
  rewrite map_app. apply in_or_app. right.
  rewrite map_fst_combine.
  2:{ rewrite length_map. symmetry. exact Hc. }
  unfold spectral_files in Hx. rewrite map_map in Hx. exact Hx.
Qed.

Lemma spectral_files_are_packaged_witness :
  exists zout,
    package_spectral rt0 "<Root/>" zin_sample = Ok zout
    /\ resolves (map (fun f => "ldc/" ++ file_name f) spectral_files) (map fst zout).
Proof.
  assert (E : is_ok (package_spectral rt0 "<Root/>" zin_sample) = true)
    by (vm_compute; reflexivity).
  destruct (package_spectral rt0 "<Root/>" zin_sample) as [zout|e] eqn:H;
    [|discriminate E].
  exists zout. split; [reflexivity|].
  exact (spectral_files_are_packaged rt0 _ _ zout H).
Defined.

(** *** The sky document as a whole *)








(** *** Rated flux in the TM-33 document and in its files *)

Lemma light_source_of_lumens (rt : Runtime) (spectral : bool) (wattage cct : Z)
    (ls : LightSource) :
  light_source_of rt spectral wattage cct = Ok ls ->
  flux_of_wattage wattage = Ok (src_lumens ls).
Proof.
  unfold light_source_of, flux_of_wattage. cbv zeta. intro H.
  bind_inv H. bind_inv H. bind_inv H. bind_inv H. bind_inv H. injection H as <-.
  rewrite Ha, Ha0. cbn [bind src_lumens]. exact Ha1.
Qed.

Lemma map_Ok_inj {A : Type} (l l' : list A) : map (@Ok A) l = map (@Ok A) l' -> l = l'.
Proof.
  revert l'. induction l as [|a l IH]; intros [|b l'] H; try discriminate H.
  - reflexivity.
  - cbn [map] in H. injection H as -> H. rewrite (IH _ H). reflexivity.
Qed.

(** X22. In the TM-33 document an emitter states the flux of its own
    wattage, 4500 lm at 30 W, 7200 lm at 50 W and 10237 lm at 75 W, while
    every photometric file the packager writes is generated for 50 W and
    states 7200 lm: the emitters of 30 W and of 75 W state another flux
    than the file their photometry refers to. *)
Theorem spectral_emitter_flux_and_file_lumens (rt : Runtime) :
  (forall light_sources emitters variants,
     spectral_entities rt = Ok (light_sources, emitters, variants) ->
     map rated_luminous_flux emitters
     = (repeat 4500 5 ++ repeat 7200 5 ++ repeat 10237 5)%list%Z)
  /\ (forall product_xml zin zout,
        package_spectral rt product_xml zin = Ok zout ->
        Forall (fun cct => exists text,
                  In (iesxml_name cct, text) zout
                  /\ Occurs "<RatedLumens>7200</RatedLumens>" text) CCTS).
Proof.
  split.
  - intros ls es vs H. unfold spectral_entities in H.
    bind_inv H. bind_inv H. bind_inv H. injection H as <- <- <-.
    unfold spectral_emitters in Ha0. unfold light_sources_of in Ha.
    assert (E1 : map rated_luminous_flux a0 = map src_lumens a).
    { refine (mapM_map _ rated_luminous_flux src_lumens _ a a0 Ha0).
      intros l e He. bind_inv He. injection He as <-. reflexivity. }
    assert (E2 : map (fun l => Ok (src_lumens l)) a
                 = flat_map (fun wattage => map (fun _ => flux_of_wattage wattage) CCTS)
                     (firstn 3 WATTAGES)).
    { refine (flat_mapM_map _ (fun l => Ok (src_lumens l)) _ _ _ _ Ha).
      intros wattage bs Hb.
      refine (mapM_map _ (fun l => Ok (src_lumens l)) (fun _ => flux_of_wattage wattage)
                _ _ _ Hb).
      intros cct l Hl. symmetry. exact (light_source_of_lumens rt true wattage cct l Hl). }
    rewrite E1. apply map_Ok_inj. rewrite map_map, E2. vm_compute. reflexivity.
  - intros product_xml zin zout H. unfold package_spectral in H.
    bind_inv H. bind_inv H. cbv zeta in H.
    apply write_iesxml_spec in H. destruct H as [contents [Hc ->]].
    apply mapM_Forall2 in Hc.
    assert (G : forall ccts cs,
              Forall2 (fun cct text => generate_iesxml_content rt cct 50 = Ok text)
                ccts cs ->
              Forall (fun cct => exists text,
                        In (iesxml_name cct, text) (combine (map iesxml_name ccts) cs)
                        /\ Occurs "<RatedLumens>7200</RatedLumens>" text) ccts).
    { clear. intros ccts cs HF. induction HF as [|cct text ccts cs Ht HF IH].
      - constructor.
      - cbn [map combine]. constructor.
        + exists text. split; [left; reflexivity|].
          unfold generate_iesxml_content in Ht.
          bind_inv Ht. bind_inv Ht. destruct a0 as [rf rg].
          bind_inv Ht. bind_inv Ht. bind_inv Ht. bind_inv Ht. bind_inv Ht.
          injection Ht as <-.
          vm_compute in Ha3. injection Ha3 as <-.
          vm_compute in Ha4. injection Ha4 as <-.
          vm_compute in Ha5. injection Ha5 as <-.
          change "<RatedLumens>7200</RatedLumens>"
            with ("<RatedLumens>" ++ str_int 7200 ++ "</RatedLumens>").
          unfold iesxml_text. occurs_around_search.
        + eapply Forall_impl; [|exact IH]. cbn beta.
          intros c [t [Hin Ho]]. exists t. split; [right; exact Hin | exact Ho]. }
    eapply Forall_impl; [|exact (G _ _ Hc)]. cbn beta.
    intros c [t [Hin Ho]]. exists t. split; [|exact Ho].
    apply in_or_app. right. exact Hin.
Qed.

Lemma spectral_emitter_flux_and_file_lumens_witness :
  exists light_sources emitters variants,
    spectral_entities rt0 = Ok (light_sources, emitters, variants)
    /\ map rated_luminous_flux emitters
       = (repeat 4500 5 ++ repeat 7200 5 ++ repeat 10237 5)%list%Z.
Proof.
  assert (E : is_ok (spectral_entities rt0) = true) by (vm_compute; reflexivity).
  destruct (spectral_entities rt0) as [[[ls es] vs]|e] eqn:H; [|discriminate E].
  exists ls, es, vs. split; [reflexivity|].
  exact (proj1 (spectral_emitter_flux_and_file_lumens rt0) ls es vs H).
Defined.

(** *** What the packagers need of the input archive *)

Lemma dict_get_keys {V : Type} (k : string) (d : dict V) :
  (exists v, dict_get k d = Some v) <-> In k (map fst d).
Proof.
  induction d as [|[k0 v0] d IH]; cbn [dict_get map fst In].
  - split; [intros [v H]; discriminate H | intros []].
  - destruct (String.eqb k0 k) eqn:E.
    + apply String.eqb_eq in E. split; [intros _; left; exact E | intros _; eexists; reflexivity].
    + apply String.eqb_neq in E. rewrite IH. split; [intro H; right; exact H|].
      intros [H|H]; [contradiction | exact H].
Qed.

Lemma zip_read_ok (z : archive) (n : string) :
  (exists data, zip_read z n = Ok data) <-> In n (map fst z).
Proof.
  unfold zip_read.
  rewrite (in_rev (map fst z)), <- map_rev, <- dict_get_keys.
  destruct (dict_get n (rev z)) as [data|].
  - split; intros _; eexists; reflexivity.
  - split; intros [x H]; discriminate H.
Qed.

Lemma zip_read_raises (z : archive) (n : string) : raises_only [KeyError] (zip_read z n).
Proof.
  intros e. unfold zip_read. destruct (dict_get n (rev z)); intro H;
    [discriminate H | injection H as <-; left; reflexivity].
Qed.

(** X23. [generate_enriched_gldf] builds its archive exactly when the input
    archive has the geometry model, the LDT photometry and the image; when
    one of them is missing it raises KeyError, and nothing else. *)
Theorem enriched_packager_needs_three_entries (product_xml : string) (zin : archive) :
  ((exists zout, package_enriched product_xml zin = Ok zout)
   <-> Forall (fun n => In n (map fst zin))
         ["geometry/model.l3d"; "ldc/photometry.ldt"; "image/product.jpg"])
  /\ raises_only [KeyError] (package_enriched product_xml zin).
Proof.
  unfold package_enriched. split; [split|].
  - intros [zout H]. bind_inv H. bind_inv H. bind_inv H.
    repeat constructor; apply zip_read_ok; eexists; eassumption.
  - intro H. inversion H as [|n1 l1 H1 H']; subst. inversion H' as [|n2 l2 H2 H'']; subst.
    inversion H'' as [|n3 l3 H3 _]; subst.
    apply zip_read_ok in H1, H2, H3.
    destruct H1 as [g ->], H2 as [p ->], H3 as [i ->]. eexists. reflexivity.
  - intros e H.
    bind_raise H; [exact (zip_read_raises _ _ e H)|].
    bind_raise H; [exact (zip_read_raises _ _ e H)|].
    bind_raise H; [exact (zip_read_raises _ _ e H)|].
    discriminate H.
Qed.

(** *** Brightness groups of the AutoLISP export *)

Lemma magnitude_falls_in_one_group (x : float) :
  (Nat.b2n (x <? 2.0)%float
   + Nat.b2n ((2.0 <=? x)%float && (x <? 3.5)%float)
   + Nat.b2n (3.5 <=? x)%float
   + Nat.b2n (is_nan x) = 1)%nat.
Proof.
  unfold is_nan. rewrite !ltb_spec, !leb_spec, eqb_spec.
  change (Prim2SF 2.0) with (S754_finite false 4503599627370496 (-51)).
  change (Prim2SF 3.5) with (S754_finite false 7881299347898368 (-51)).
  assert (A : forall a b, Pos.compare_cont Eq a b = CompOpp (Pos.compare_cont Eq b a))
    by (intros a b; exact (Pos.compare_antisym b a)).
  destruct (Prim2SF x) as [s|s| |s m e]; try destruct s; try reflexivity;
    unfold SFltb, SFleb, SFeqb, SFcompare;
    rewrite Pos.compare_cont_refl, Z.compare_refl; [reflexivity|].
  rewrite (Z.compare_antisym e (-51)).
  destruct (e ?= -51)%Z eqn:E; cbn [CompOpp]; try reflexivity.
  rewrite (A 4503599627370496%positive m), (A 7881299347898368%positive m).
  destruct (Pos.compare_cont Eq m 4503599627370496) eqn:E1;
    destruct (Pos.compare_cont Eq m 7881299347898368) eqn:E2;
    cbn [CompOpp]; try reflexivity;
    apply (proj1 (Pos.compare_lt_iff _ _)) in E1; apply Pos2Z.pos_lt_pos in E1.
  - apply Pos.compare_eq in E2. apply (f_equal Z.pos) in E2. lia.
  - apply (proj1 (Pos.compare_gt_iff _ _)) in E2. apply Pos2Z.pos_lt_pos in E2. lia.
Qed.

Lemma filter_length_sum {A : Type} (p1 p2 p3 p4 : A -> bool) (l : list A) :
  (forall a, (Nat.b2n (p1 a) + Nat.b2n (p2 a) + Nat.b2n (p3 a) + Nat.b2n (p4 a) = 1)%nat) ->
  (List.length (filter p1 l) + List.length (filter p2 l) + List.length (filter p3 l)
   + List.length (filter p4 l) = List.length l)%nat.
Proof.
  intro H. induction l as [|a l IH]; [reflexivity|].
  cbn [filter List.length]. specialize (H a).
  destruct (p1 a), (p2 a), (p3 a), (p4 a); cbn [Nat.b2n List.length] in *; lia.
Qed.

(** X24. The three brightness groups of the AutoLISP export hold each star
    of the sorted list whose magnitude is a number exactly once, and no star
    whose magnitude is NaN; so together they hold as many stars as there are
    visible ones less those of NaN magnitude, in whatever order [sorted]
    returned them. *)
Theorem brightness_groups_leave_out_nan_magnitudes
    (visible_stars sorted_stars : list (Star * float * float)) :
  Permutation visible_stars sorted_stars ->
  (List.length (bright_stars sorted_stars) + List.length (medium_stars sorted_stars)
   + List.length (dim_stars sorted_stars)
   + List.length (filter (fun v => is_nan (mag (fst (fst v)))) sorted_stars)
   = List.length visible_stars)%nat.
Proof.
  intro HP. rewrite (Permutation_length HP).
  unfold bright_stars, medium_stars, dim_stars.
  apply filter_length_sum. intros [[s alt] az]. cbn [fst].
  apply magnitude_falls_in_one_group.
Qed.

Lemma brightness_groups_leave_out_nan_magnitudes_witness :
  (List.length (bright_stars [(polaris, 40, 10); (nan_star, 50, 20); (vega, 45, 120)]%float)
   + List.length (medium_stars [(polaris, 40, 10); (nan_star, 50, 20); (vega, 45, 120)]%float)
   + List.length (dim_stars [(polaris, 40, 10); (nan_star, 50, 20); (vega, 45, 120)]%float)
   + List.length (filter (fun v => is_nan (mag (fst (fst v))))
                    [(polaris, 40, 10); (nan_star, 50, 20); (vega, 45, 120)]%float)
   = 3)%nat.
Proof.
  apply (brightness_groups_leave_out_nan_magnitudes
           [(vega, 45, 120); (polaris, 40, 10); (nan_star, 50, 20)]%float).
  apply perm_trans with [(polaris, 40, 10); (vega, 45, 120); (nan_star, 50, 20)]%float.
  - apply perm_swap.
  - apply perm_skip. apply perm_swap.
Defined.
